(** * pyais/messages.py : NMEA framing, checksum and fragment assembly

    A shallow embedding of [NMEAMessage] and [AISMessage].  Python [bytes]
    are lists of [Byte.byte]; indexing a [bytes] object yields the integer
    [ord b].  Attributes that Python leaves at [None] are [option]s, raised
    exceptions are the [Raise] branch of [result], and objects that are
    mutated through references live in a [heap]. *)

From Stdlib Require Import ZArith Lia Bool.
From Stdlib Require Import Strings.Byte Strings.Ascii Strings.String.
From stdpp Require Import base option list strings gmap.

Local Open Scope Z_scope.

(** ** Exceptions and the error monad *)

(** The two [ValueError]s raised by [NMEAMessage.__init__] itself differ by
    their message; [int()] raises a third one. *)
Inductive value_error :=
  | NotSevenFields      (* "Invalid NMEA message provided. ..." *)
  | InvalidChecksum     (* "Invalid Checksum. Message is invalid!" *)
  | InvalidLiteral      (* int(): "invalid literal for int() with base ..." *)
  | ExceedsDigitLimit   (* int(): "Exceeds the limit (4300 digits) ..." *)
  | OtherValueError.

Inductive exn :=
  | IndexError
  | TypeError
  | UnicodeDecodeError
  | ValueError (why : value_error)
  | RangeError.         (* the specification's error for a bit read out of range *)

Inductive result (A : Type) :=
  | Ok (a : A)
  | Raise (e : exn).
Arguments Ok {A} a.
Arguments Raise {A} e.

#[global] Instance result_ret : MRet result := fun _ a => Ok a.
#[global] Instance result_bind : MBind result := fun _ _ f m =>
  match m with
  | Ok a => f a
  | Raise e => Raise e
  end.

(** ** Python [bytes] *)

Abbreviation bytes := (list byte).

Definition ord (b : byte) : Z := Z.of_N (Byte.to_N b).

(** [b"..."] literals. *)
Definition B (s : string) : bytes := list_byte_of_string s.

(** [s[i]] on a sequence: [IndexError] when out of range. *)
Definition getitem {A} (s : list A) (i : nat) : result A :=
  match s !! i with
  | Some x => Ok x
  | None => Raise IndexError
  end.

(** [s[lo:hi]] and [s[lo:]] for non-negative bounds. *)
Definition slice {A} (s : list A) (lo hi : nat) : list A := take (hi - lo) (drop lo s).
Definition slice_from {A} (s : list A) (lo : nat) : list A := drop lo s.

(** [s.split(sep)] for a one-byte separator: every occurrence splits, and
    the result always has at least one (possibly empty) field. *)
Fixpoint bytes_split (sep : byte) (s : bytes) : list bytes :=
  match s with
  | [] => [[]]
  | c :: r =>
      if Byte.eqb c sep then [] :: bytes_split sep r
      else match bytes_split sep r with
           | f :: fs => (c :: f) :: fs
           | [] => [[c]]
           end
  end.

(** [s.split(sep, 1)]: at most one split, at the first occurrence. *)
Fixpoint bytes_split1 (sep : byte) (s : bytes) : list bytes :=
  match s with
  | [] => [[]]
  | c :: r =>
      if Byte.eqb c sep then [[]; r]
      else match bytes_split1 sep r with
           | f :: fs => (c :: f) :: fs
           | [] => [[c]]
           end
  end.

(** [sep.join(fields)], the inverse of [bytes_split]. *)
Fixpoint bytes_join (sep : byte) (fields : list bytes) : bytes :=
  match fields with
  | [] => []
  | [f] => f
  | f :: fs => f ++ sep :: bytes_join sep fs
  end.

(** [b.decode('ascii')]. *)
Definition decode_ascii (s : bytes) : result string :=
  if forallb (fun b => ord b <? 128) s then Ok (string_of_list_byte s)
  else Raise UnicodeDecodeError.

(** [functools.reduce(f, seq)] without an initial value. *)
Definition reduce {A} (f : A -> A -> A) (seq : list A) : result A :=
  match seq with
  | [] => Raise TypeError
  | x :: xs => Ok (fold_left f xs x)
  end.

(** ** [int(b, base)] on [bytes]

    CPython's [PyLong_FromString] as reached from [int(bytes)] and
    [int(bytes, 16)]: optional surrounding whitespace, an optional sign, for
    base 16 (8, 2) an optional [0x] ([0o], [0b]) prefix, then digits that may
    be separated by single underscores; anything else is a [ValueError].
    As in CPython 3.11, a literal in a base that is not a power of two may
    have at most 4300 digits ([sys.get_int_max_str_digits()]); the digits
    are counted once the digit loop has passed and before whatever follows
    them is looked at. *)

Definition py_isspace (c : byte) : bool :=
  let o := ord c in ((9 <=? o) && (o <=? 13)) || (o =? 32).

(** [_PyLong_DigitValue]: 37 marks a byte that is a digit in no base. *)
Definition digit_value (c : byte) : Z :=
  let o := ord c in
  if (48 <=? o) && (o <=? 57) then o - 48
  else if (97 <=? o) && (o <=? 122) then o - 87
  else if (65 <=? o) && (o <=? 90) then o - 55
  else 37.

Definition is_char (c : byte) (code : Z) : bool := ord c =? code.

Fixpoint lstrip (s : bytes) : bytes :=
  match s with
  | c :: r => if py_isspace c then lstrip r else s
  | [] => []
  end.

Definition strip_sign (s : bytes) : Z * bytes :=
  match s with
  | c :: r =>
      if is_char c 43 then (1, r)
      else if is_char c 45 then (-1, r)
      else (1, s)
  | [] => (1, [])
  end.

Definition strip_base_prefix (base : Z) (s : bytes) : bytes :=
  match s with
  | c0 :: c1 :: r =>
      if is_char c0 48 &&
         (((base =? 16) && (is_char c1 120 || is_char c1 88)) ||
          ((base =? 8) && (is_char c1 111 || is_char c1 79)) ||
          ((base =? 2) && (is_char c1 98 || is_char c1 66)))
      then match r with
           | u :: r' => if is_char u 95 then r' else r
           | [] => r
           end
      else s
  | _ => s
  end.

(** The digit loop: accumulated value, number of digits seen and the
    unconsumed rest; [None] on a doubled or trailing underscore. *)
Fixpoint scan_digits (base : Z) (s : bytes) (prev_us : bool) (acc : Z) (n : nat)
  : option (Z * nat * bytes) :=
  match s with
  | c :: r =>
      if is_char c 95 then
        if prev_us then None else scan_digits base r true acc n
      else if digit_value c <? base then
        scan_digits base r false (acc * base + digit_value c) (S n)
      else if prev_us then None else Some (acc, n, s)
  | [] => if prev_us then None else Some (acc, n, [])
  end.

(** The test of the digit limit: only for bases with
    [(base & (base - 1)) != 0]. *)
Definition over_digit_limit (base : Z) (n : nat) : bool :=
  negb (Z.land base (base - 1) =? 0) && (4300 <? Z.of_nat n).

Definition py_int (base : Z) (s : bytes) : result Z :=
  let s := lstrip s in
  let '(sign, s) := strip_sign s in
  let s := strip_base_prefix base s in
  match s with
  | c :: _ => if is_char c 95 then Raise (ValueError InvalidLiteral) else
      match scan_digits base s false 0 0 with
      | Some (v, n, rest) =>
          if over_digit_limit base n then Raise (ValueError ExceedsDigitLimit)
          else
            match n, lstrip rest with
            | S _, [] => Ok (sign * v)
            | _, _ => Raise (ValueError InvalidLiteral)
            end
      | None => Raise (ValueError InvalidLiteral)
      end
  | [] => Raise (ValueError InvalidLiteral)
  end.

(** ** [NMEAMessage] *)

Abbreviation bitarray := (list bool).

Record NMEAMessage := mkNMEA {
  ais_id : option Z;
  raw : bytes;
  talker : option string;
  msg_type : option string;
  count : option Z;
  index : option Z;
  seq_id : option bytes;
  channel : option bytes;
  data : option bytes;
  checksum : option Z;
  bit_array : option bitarray
}.

(** Attribute stores. *)
Definition set_raw (v : bytes) (m : NMEAMessage) : NMEAMessage :=
  mkNMEA (ais_id m) v (talker m) (msg_type m) (count m) (index m) (seq_id m)
    (channel m) (data m) (checksum m) (bit_array m).
Definition set_data (v : option bytes) (m : NMEAMessage) : NMEAMessage :=
  mkNMEA (ais_id m) (raw m) (talker m) (msg_type m) (count m) (index m)
    (seq_id m) (channel m) v (checksum m) (bit_array m).
Definition set_bit_array (v : option bitarray) (m : NMEAMessage) : NMEAMessage :=
  mkNMEA (ais_id m) (raw m) (talker m) (msg_type m) (count m) (index m)
    (seq_id m) (channel m) (data m) (checksum m) v.
Definition set_ais_id (v : option Z) (m : NMEAMessage) : NMEAMessage :=
  mkNMEA v (raw m) (talker m) (msg_type m) (count m) (index m) (seq_id m)
    (channel m) (data m) (checksum m) (bit_array m).

(** The object after [setattr(self, name, None)] for every slot and
    [self.raw = raw]. *)
Definition blank (raw : bytes) : NMEAMessage :=
  mkNMEA None raw None None None None None None None None None.

(** [NMEAMessage.compute_checksum]. *)
Definition compute_checksum (msg : bytes) : result Z :=
  msg ← getitem (bytes_split1 "*" (slice_from msg 1)) 0;
  reduce Z.lxor (ord <$> msg).

(** [NMEAMessage.is_valid]; a [None] checksum never equals an integer. *)
Definition is_valid (self : NMEAMessage) : result bool :=
  c ← compute_checksum (raw self);
  mret (bool_decide (checksum self = Some c)).

Section Init.
(** [pyais.util.decode_into_bit_array] and [pyais.util.get_int] live
    outside this module; [__init__] is verified for every implementation
    of them. *)
Variable decode_into_bit_array : bytes -> result bitarray.
Variable get_int : bitarray -> Z -> Z -> result Z.

(** Lines 46-69: unpack the seven fields and store them on [self]. *)
Definition unpack (raw : bytes) (values : list bytes) : result NMEAMessage :=
  match values with
  | [head; count; index; seq_id; channel; data; checksum] =>
      talker ← decode_ascii (slice head 1 3);
      msg_type ← decode_ascii (slice_from head 3);
      count ← py_int 10 count;
      index ← py_int 10 index;
      checksum ← py_int 16 (slice_from checksum 2);
      mret (mkNMEA None raw (Some talker) (Some msg_type) (Some count)
              (Some index) (Some seq_id) (Some channel) (Some data)
              (Some checksum) None)
  | _ => Raise (ValueError NotSevenFields)
  end.

(** Lines 42-77 of [__init__], reached once the sentinel test has passed. *)
Definition init_fields (raw : bytes) (values : list bytes) : result NMEAMessage :=
  if negb (length values =? 7)%nat then Raise (ValueError NotSevenFields)
  else
    self ← unpack raw values;
    valid ← is_valid self;
    if negb valid then Raise (ValueError InvalidChecksum)
    else
      match data self with
      | None => Raise TypeError   (* never taken: [unpack] stores [data] *)
      | Some payload =>
          bits ← decode_into_bit_array payload;
          id ← get_int bits 0 6;
          mret (set_ais_id (Some id) (set_bit_array (Some bits) self))
      end.

(** [NMEAMessage.__init__]: the constructed object, or the exception. *)
Definition NMEAMessage_init (raw : bytes) : result NMEAMessage :=
  let self := blank raw in
  let values := bytes_split "," raw in
  v0 ← getitem values 0;
  c0 ← getitem v0 0;
  if negb (ord c0 =? 0x21) then mret self
  else init_fields raw values.
End Init.

(** ** [pyais.util] as the specification describes it *)

(** Modelled from the spec: [pyais.util.decode_into_bit_array] is not part of
    this module.  Section 4.3: for each payload byte [b], [v = b - 0x30],
    [v] is lowered by 8 when it exceeds 40, and the low six bits of [v] are
    emitted most significant bit first. *)
Definition six_bits (b : byte) : bitarray :=
  let v := ord b - 0x30 in
  let v := if 40 <? v then v - 8 else v in
  (fun i => Z.testbit v i) <$> [5; 4; 3; 2; 1; 0].

Definition unarm (payload : bytes) : result bitarray :=
  Ok (concat (six_bits <$> payload)).

(** Modelled from the spec: [pyais.util.get_int] is not part of this module.
    Section 4.4: big-endian unsigned read of [length] bits from [start]; a
    range reaching past the end of the stream is an error. *)
Definition bits_to_Z (bits : bitarray) : Z :=
  fold_left (fun acc (b : bool) => 2 * acc + (if b then 1 else 0)) bits 0.

Definition get_uint (bits : bitarray) (start len : Z) : result Z :=
  if (start <? 0) || (len <? 0) || (Z.of_nat (length bits) <? start + len)
  then Raise RangeError
  else Ok (bits_to_Z (slice bits (Z.to_nat start) (Z.to_nat (start + len)))).

(** The constructor with the specification's helpers plugged in. *)
Definition NMEAMessage_new : bytes -> result NMEAMessage :=
  NMEAMessage_init unarm get_uint.

(** ** Object references

    [assemble_from_iterable] receives references and writes through one of
    them, so message objects live in a heap and a Python sequence of
    messages is a list of locations (the same object may occur twice). *)

Definition loc := nat.
Definition heap := loc -> NMEAMessage.

Definition store (h : heap) (l : loc) (m : NMEAMessage) : heap :=
  fun l' => if decide (l' = l) then m else h l'.

(** [acc += x] on [bytes] and [bitarray]; [x = None] is a [TypeError]. *)
Definition iadd {A} (acc : list A) (x : option (list A)) : result (list A) :=
  match x with
  | Some v => Ok (acc ++ v)
  | None => Raise TypeError
  end.

(** The [for msg in messages] loop of [assemble_from_iterable]. *)
Fixpoint assemble_loop (h : heap) (messages : list loc)
    (acc_raw acc_data : bytes) (acc_bits : bitarray)
  : result (bytes * bytes * bitarray) :=
  match messages with
  | [] => Ok (acc_raw, acc_data, acc_bits)
  | msg :: rest =>
      let acc_raw := acc_raw ++ raw (h msg) in
      acc_data ← iadd acc_data (data (h msg));
      acc_bits ← iadd acc_bits (bit_array (h msg));
      assemble_loop h rest acc_raw acc_data acc_bits
  end.

(** [NMEAMessage.assemble_from_iterable]: the heap after the call and the
    returned reference. *)
Definition assemble_from_iterable (h : heap) (messages : list loc)
  : result (heap * loc) :=
  '(acc_raw, acc_data, acc_bits) ← assemble_loop h messages [] [] [];
  m0 ← getitem messages 0;
  let h := store h m0 (set_raw acc_raw (h m0)) in
  let h := store h m0 (set_data (Some acc_data) (h m0)) in
  let h := store h m0 (set_bit_array (Some acc_bits) (h m0)) in
  mret (h, m0).

(** ** [AISMessage] *)

Section Decoded.
(** The values the external decoders put into [content], apart from
    [None]. *)
Variable value : Type.

Inductive pyobj :=
  | PyNone
  | PyVal (v : value).

Record AISMessage := mkAIS {
  nmea : NMEAMessage;
  ais_type : Z;
  content : option (gmap string pyobj)
}.

(** [dict.get(key, default)]. *)
Definition dict_get (d : gmap string pyobj) (key : string) (dflt : pyobj) : pyobj :=
  default dflt (d !! key).

(** [AISMessage.__getitem__]. *)
Definition AISMessage_getitem (self : AISMessage) (item : string) : pyobj :=
  match content self with
  | None => PyNone
  | Some d => dict_get d item PyNone
  end.
End Decoded.
Arguments PyNone {value}.
Arguments PyVal {value} v.
Arguments nmea {value} _.
Arguments ais_type {value} _.
Arguments content {value} _.
Arguments mkAIS {value} _ _ _.
Arguments dict_get {value} d key dflt.
Arguments AISMessage_getitem {value} self item.

(** ** Notions used by the specification *)

(** The XOR of a run of bytes, [0] for the empty run. *)
Definition xor_fold (s : bytes) : Z := fold_right Z.lxor 0 (ord <$> s).

(** A hexadecimal digit, and the value of a two-digit hexadecimal numeral. *)
Definition is_hex (c : byte) : bool := digit_value c <? 16.
Definition hex2 (h1 h2 : byte) : Z := 16 * digit_value h1 + digit_value h2.

(** A valid parsed frame: the object constructed from some encapsulated
    sentence. *)
Definition parsed_frame (decode_into_bit_array : bytes -> result bitarray)
    (get_int : bitarray -> Z -> Z -> result Z) (m : NMEAMessage) : Prop :=
  exists raw0, head raw0 = Some "!"%byte /\
               NMEAMessage_init decode_into_bit_array get_int raw0 = Ok m.

(** Payload bytes and bit stream of a frame, empty while unset. *)
Definition payload (m : NMEAMessage) : bytes := default [] (data m).
Definition bits (m : NMEAMessage) : bitarray := default [] (bit_array m).

(** ** Sample sentences *)

(** The two fragments of a type 5 message, followed by hand-made sentences:
    a single-fragment one, one with six fields, one with a wrong checksum,
    one with a wrong checksum and a non-numeric fragment count, and one
    without a pad count. *)
Definition fragment1 : bytes :=
  B "!AIVDM,2,1,3,B,55P5TL01VIaAL@7WKO@mBplU@<PDhh000000001S;AJ::4A80?4i@E53,0*3E".
Definition fragment2 : bytes := B "!AIVDM,2,2,3,B,1@0000000000000,2*55".

Definition position_report : bytes := B "!AIVDM,1,1,,A,0Am,0*3A".
Definition six_fields : bytes := B "!AIVDM,1,1,,A,15M".
Definition bad_checksum : bytes := B "!AIVDM,2,2,3,B,1@0000000000000,2*56".
Definition bad_count : bytes := B "!AIVDM,x,1,,A,0Am,0*3A".
Definition empty_pad_count : bytes := B "!AIVDM,1,1,,A,1Al,*1A".

(** The object [NMEAMessage(s)], for a sentence known to be accepted. *)
Definition frame_of (s : bytes) : NMEAMessage :=
  match NMEAMessage_new s with
  | Ok m => m
  | Raise _ => blank s
  end.

(** A heap with the first fragment at location 0 and the second one
    everywhere else. *)
Definition two_fragments : heap :=
  fun l => match l with
           | O => frame_of fragment1
           | S _ => frame_of fragment2
           end.

(** ** The remaining properties of [NMEAMessage] *)

(** The truth value Python gives [self.seq_id]: [None] and [b''] are false. *)
Definition truthy (x : option bytes) : bool :=
  match x with
  | Some (_ :: _) => true
  | _ => false
  end.

(** [NMEAMessage.is_single]:
    [not self.seq_id and self.index == self.count == 1]. *)
Definition is_single (self : NMEAMessage) : bool :=
  negb (truthy (seq_id self)) &&
  (bool_decide (index self = count self) && bool_decide (count self = Some 1)).

(** [NMEAMessage.is_multi]. *)
Definition is_multi (self : NMEAMessage) : bool := negb (is_single self).

(** [NMEAMessage.fragment_count]. *)
Definition fragment_count (self : NMEAMessage) : option Z := count self.

(** A message object that holds a payload and its bits. *)
Definition has_payload (m : NMEAMessage) : Prop :=
  is_Some (data m) /\ is_Some (bit_array m).

(** ** Text and the export of a message *)

(** A Python [str], as the list of its code points. *)
Abbreviation pystr := (list Z).

(** The byte with value [z], for [0 <= z < 256]. *)
Definition byte_of (z : Z) : byte := default Byte.x00 (Byte.of_N (Z.to_N z)).

(** The text of a [str] that was built from ASCII bytes. *)
Definition text_of (s : string) : pystr := ord <$> list_byte_of_string s.

(** [str.encode()]: UTF-8, one to four bytes per code point; a surrogate
    raises [UnicodeEncodeError], which is a [ValueError]. *)
Definition utf8_encode_char (cp : Z) : result bytes :=
  if cp <? 0x80 then Ok [byte_of cp]
  else if cp <? 0x800 then
    Ok [byte_of (Z.lor 0xC0 (Z.shiftr cp 6));
        byte_of (Z.lor 0x80 (Z.land cp 0x3F))]
  else if cp <? 0x10000 then
    if (0xD800 <=? cp) && (cp <=? 0xDFFF) then Raise (ValueError OtherValueError)
    else
      Ok [byte_of (Z.lor 0xE0 (Z.shiftr cp 12));
          byte_of (Z.lor 0x80 (Z.land (Z.shiftr cp 6) 0x3F));
          byte_of (Z.lor 0x80 (Z.land cp 0x3F))]
  else
    Ok [byte_of (Z.lor 0xF0 (Z.shiftr cp 18));
        byte_of (Z.lor 0x80 (Z.land (Z.shiftr cp 12) 0x3F));
        byte_of (Z.lor 0x80 (Z.land (Z.shiftr cp 6) 0x3F));
        byte_of (Z.lor 0x80 (Z.land cp 0x3F))].

Fixpoint utf8_encode (s : pystr) : result bytes :=
  match s with
  | [] => Ok []
  | cp :: r =>
      b ← utf8_encode_char cp;
      rest ← utf8_encode r;
      mret (b ++ rest)
  end.

(** [bytes.decode('utf-8')]: strict decoding; overlong forms, surrogates,
    code points above 0x10FFFF, stray continuation bytes and truncated
    sequences raise [UnicodeDecodeError]. *)
Definition in_range (b : byte) (lo hi : Z) : bool :=
  (lo <=? ord b) && (ord b <=? hi).

Definition low6 (b : byte) : Z := Z.land (ord b) 0x3F.

Fixpoint utf8_decode (s : bytes) : result pystr :=
  match s with
  | [] => Ok []
  | b0 :: r =>
      if ord b0 <? 0x80 then
        rest ← utf8_decode r; mret (ord b0 :: rest)
      else if in_range b0 0xC2 0xDF then
        match r with
        | b1 :: r1 =>
            if in_range b1 0x80 0xBF then
              rest ← utf8_decode r1;
              mret (Z.lor (Z.shiftl (Z.land (ord b0) 0x1F) 6) (low6 b1) :: rest)
            else Raise UnicodeDecodeError
        | _ => Raise UnicodeDecodeError
        end
      else if in_range b0 0xE0 0xEF then
        match r with
        | b1 :: b2 :: r2 =>
            let lo := if ord b0 =? 0xE0 then 0xA0 else 0x80 in
            let hi := if ord b0 =? 0xED then 0x9F else 0xBF in
            if in_range b1 lo hi && in_range b2 0x80 0xBF then
              rest ← utf8_decode r2;
              mret (Z.lor (Z.shiftl (Z.land (ord b0) 0x0F) 12)
                      (Z.lor (Z.shiftl (low6 b1) 6) (low6 b2)) :: rest)
            else Raise UnicodeDecodeError
        | _ => Raise UnicodeDecodeError
        end
      else if in_range b0 0xF0 0xF4 then
        match r with
        | b1 :: b2 :: b3 :: r3 =>
            let lo := if ord b0 =? 0xF0 then 0x90 else 0x80 in
            let hi := if ord b0 =? 0xF4 then 0x8F else 0xBF in
            if in_range b1 lo hi && in_range b2 0x80 0xBF && in_range b3 0x80 0xBF
            then
              rest ← utf8_decode r3;
              mret (Z.lor (Z.shiftl (Z.land (ord b0) 0x07) 18)
                      (Z.lor (Z.shiftl (low6 b1) 12)
                         (Z.lor (Z.shiftl (low6 b2) 6) (low6 b3))) :: rest)
            else Raise UnicodeDecodeError
        | _ => Raise UnicodeDecodeError
        end
      else Raise UnicodeDecodeError
  end.

(** [bitarray.to01()]. *)
Definition to01 (b : bitarray) : pystr := (fun x : bool => if x then 49 else 48) <$> b.

(** [NMEAMessage.from_string]. *)
Definition from_string (decode_into_bit_array : bytes -> result bitarray)
    (get_int : bitarray -> Z -> Z -> result Z) (nmea_str : pystr)
  : result NMEAMessage :=
  b ← utf8_encode nmea_str;
  NMEAMessage_init decode_into_bit_array get_int b.

(** The values of the exported dictionary: [None], an [int] or a [str]. *)
Inductive slot_value :=
  | VNone
  | VInt (z : Z)
  | VStr (s : pystr).

(** [serializable] of [__dict__], by the type of the slot it is applied
    to: [bytes] are decoded as UTF-8, a [bitarray] becomes its 0/1 string,
    [int], [str] and [None] are passed on. *)
Definition int_value (x : option Z) : slot_value :=
  match x with Some z => VInt z | None => VNone end.
Definition str_value (x : option string) : slot_value :=
  match x with Some s => VStr (text_of s) | None => VNone end.
Definition bits_value (x : option bitarray) : slot_value :=
  match x with Some b => VStr (to01 b) | None => VNone end.
Definition bytes_value (x : option bytes) : result slot_value :=
  match x with
  | Some b => s ← utf8_decode b; mret (VStr s)
  | None => Ok VNone
  end.

(** The value of a [bytes] slot whose bytes are all ASCII. *)
Definition ascii_value (x : option bytes) : slot_value :=
  match x with Some b => VStr (ord <$> b) | None => VNone end.

(** [NMEAMessage.__slots__]. *)
Definition slots : list string :=
  ["ais_id"; "raw"; "talker"; "msg_type"; "count"; "index"; "seq_id";
   "channel"; "data"; "checksum"; "bit_array"]%string.

(** [NMEAMessage.__dict__]: the slots with their serialized values, in the
    order of [__slots__]. *)
Definition NMEAMessage_dict (self : NMEAMessage) : result (list (string * slot_value)) :=
  v_raw ← bytes_value (Some (raw self));
  v_seq_id ← bytes_value (seq_id self);
  v_channel ← bytes_value (channel self);
  v_data ← bytes_value (data self);
  mret [("ais_id", int_value (ais_id self)); ("raw", v_raw);
        ("talker", str_value (talker self));
        ("msg_type", str_value (msg_type self));
        ("count", int_value (count self)); ("index", int_value (index self));
        ("seq_id", v_seq_id); ("channel", v_channel); ("data", v_data);
        ("checksum", int_value (checksum self));
        ("bit_array", bits_value (bit_array self))]%string.

(** The bytes of [s] in front of its first [sep], all of [s] without one. *)
Fixpoint run_before (sep : byte) (s : bytes) : bytes :=
  match s with
  | [] => []
  | c :: r => if Byte.eqb c sep then [] else c :: run_before sep r
  end.

(** * Properties *)

(** ** The error monad *)

Lemma bind_Ok {A C} (m : result A) (f : A -> result C) (c : C) :
  m ≫= f = Ok c -> exists a, m = Ok a /\ f a = Ok c.
Proof. destruct m as [a|e]; simpl; [eauto | discriminate]. Qed.

Ltac inv_bind H :=
  let a := fresh "a" in
  let Ha := fresh "H" a in
  apply bind_Ok in H; destruct H as (a & Ha & H).

(** ** Bytes *)

Lemma ord_inj (a c : byte) : ord a = ord c -> a = c.
Proof.
  unfold ord. intros H. apply N2Z.inj in H.
  assert (Some a = Some c) as E
    by (rewrite <- (Byte.of_to_N a), <- (Byte.of_to_N c); now rewrite H).
  now injection E.
Qed.

Lemma eqb_refl (a : byte) : Byte.eqb a a = true.
Proof. now apply Byte.byte_dec_lb. Qed.

Lemma eqb_neq (a c : byte) : a <> c -> Byte.eqb a c = false.
Proof.
  intros H. destruct (Byte.eqb a c) eqn:E; [|reflexivity].
  apply Byte.byte_dec_bl in E. contradiction.
Qed.

(** ** [split] and [join] *)

Lemma bytes_split_cons sep s : exists f fs, bytes_split sep s = f :: fs.
Proof.
  destruct s as [|c r]; simpl; [eauto|].
  destruct (Byte.eqb c sep); [eauto|].
  destruct (bytes_split sep r); eauto.
Qed.

(** The first field starts with the first byte of the input unless that
    byte is the separator. *)
Lemma bytes_split_head sep c r :
  c <> sep -> exists f fs, bytes_split sep (c :: r) = (c :: f) :: fs.
Proof.
  intros H. simpl. rewrite (eqb_neq _ _ H).
  destruct (bytes_split_cons sep r) as (f & fs & ->). eauto.
Qed.

(** The first field is empty exactly for the empty input and for inputs
    that begin with the separator. *)
Lemma bytes_split_first_empty (sep : byte) (s : bytes) :
  bytes_split sep s !! 0%nat = Some [] <-> s = [] \/ head s = Some sep.
Proof.
  destruct s as [|c r]; simpl; [tauto|].
  destruct (Byte.eqb c sep) eqn:E; simpl.
  - apply Byte.byte_dec_bl in E. subst. tauto.
  - apply Byte.eqb_false in E.
    destruct (bytes_split sep r); simpl; split;
      try discriminate; intros [H|H]; try discriminate; congruence.
Qed.

(** No field produced by [split] contains the separator. *)
Lemma bytes_split_no_sep (sep : byte) (s : bytes) :
  Forall (fun f => sep ∉ f) (bytes_split sep s).
Proof.
  induction s as [|c s IH]; simpl.
  - constructor; [apply not_elem_of_nil|constructor].
  - destruct (Byte.eqb c sep) eqn:Ec.
    + constructor; [apply not_elem_of_nil|exact IH].
    + apply Byte.eqb_false in Ec.
      destruct (bytes_split sep s) as [|f fs]; [repeat constructor|].
      * intros H. apply elem_of_cons in H as [H|H]; [congruence|].
        now apply not_elem_of_nil in H.
      * inversion IH as [|? ? Hf Hfs]; subst. constructor; [|exact Hfs].
        intros H. apply elem_of_cons in H as [H|H]; [congruence|contradiction].
Qed.

Lemma bytes_join_split (sep : byte) (s : bytes) :
  bytes_join sep (bytes_split sep s) = s.
Proof.
  induction s as [|c s IH]; simpl; [reflexivity|].
  destruct (Byte.eqb c sep) eqn:Ec.
  - apply Byte.byte_dec_bl in Ec. subst c.
    destruct (bytes_split_cons sep s) as (f & fs & E). rewrite E in *.
    change (bytes_join sep ([] :: f :: fs)) with (sep :: bytes_join sep (f :: fs)).
    now rewrite IH.
  - destruct (bytes_split sep s) as [|f [|g fs]]; simpl in *; now subst.
Qed.

Lemma bytes_split_nosep (sep : byte) (s : bytes) :
  sep ∉ s -> bytes_split sep s = [s].
Proof.
  induction s as [|c s IH]; intros Hnotin; simpl; [reflexivity|].
  rewrite eqb_neq by (intros ->; apply Hnotin; left).
  rewrite IH; [reflexivity|]. intros Hin. apply Hnotin. now right.
Qed.

Lemma bytes_split_app_sep (sep : byte) (f rest : bytes) :
  sep ∉ f -> bytes_split sep (f ++ sep :: rest) = f :: bytes_split sep rest.
Proof.
  induction f as [|c f IH]; intros Hnotin; simpl.
  - now rewrite eqb_refl.
  - rewrite eqb_neq by (intros ->; apply Hnotin; left).
    rewrite IH; [reflexivity|]. intros Hin. apply Hnotin. now right.
Qed.

Lemma bytes_split_join (sep : byte) (fields : list bytes) :
  fields <> [] -> Forall (fun f => sep ∉ f) fields ->
  bytes_split sep (bytes_join sep fields) = fields.
Proof.
  induction fields as [|f fs IH]; intros Hne Hall; [contradiction|].
  inversion Hall as [|? ? Hf Hfs]; subst.
  destruct fs as [|g fs].
  - simpl. now apply bytes_split_nosep.
  - change (bytes_join sep (f :: g :: fs))
      with (f ++ sep :: bytes_join sep (g :: fs)).
    rewrite bytes_split_app_sep by assumption.
    rewrite IH; [reflexivity|discriminate|assumption].
Qed.

(** ** [compute_checksum] *)

Lemma bytes_split1_sep (sep : byte) (body rest : bytes) :
  sep ∉ body -> bytes_split1 sep (body ++ sep :: rest) = [body; rest].
Proof.
  induction body as [|c body IH]; intros Hnotin; simpl.
  - now rewrite eqb_refl.
  - rewrite eqb_neq by (intros ->; apply Hnotin; left).
    rewrite IH; [reflexivity|]. intros Hin. apply Hnotin. now right.
Qed.

Lemma bytes_split1_nosep (sep : byte) (s : bytes) :
  sep ∉ s -> bytes_split1 sep s = [s].
Proof.
  induction s as [|c s IH]; intros Hnotin; simpl; [reflexivity|].
  rewrite eqb_neq by (intros ->; apply Hnotin; left).
  rewrite IH; [reflexivity|]. intros Hin. apply Hnotin. now right.
Qed.

Lemma fold_left_lxor (xs : list Z) (x : Z) :
  fold_left Z.lxor xs x = Z.lxor x (fold_right Z.lxor 0 xs).
Proof.
  revert x. induction xs as [|y xs IH]; intros x; simpl.
  - now rewrite Z.lxor_0_r.
  - now rewrite IH, Z.lxor_assoc.
Qed.

Lemma reduce_xor_fold (c : byte) (s : bytes) :
  reduce Z.lxor (ord <$> c :: s) = Ok (xor_fold (c :: s)).
Proof. simpl. now rewrite fold_left_lxor. Qed.

(** On a non-empty run between the first byte and the first ['*'] the
    checksum is the XOR of the run. *)
Lemma compute_checksum_xor_fold (s0 : byte) (body rest : bytes) :
  body <> [] -> "*"%byte ∉ body ->
  compute_checksum (s0 :: body ++ "*"%byte :: rest) = Ok (xor_fold body).
Proof.
  intros Hne Hnotin. unfold compute_checksum, slice_from. simpl drop. rewrite drop_0.
  rewrite bytes_split1_sep by assumption. simpl.
  destruct body as [|c body]; [contradiction|]. apply reduce_xor_fold.
Qed.

(** Without any ['*'] the run extends to the end of the input. *)
Lemma compute_checksum_no_star (s0 : byte) (body : bytes) :
  body <> [] -> "*"%byte ∉ body ->
  compute_checksum (s0 :: body) = Ok (xor_fold body).
Proof.
  intros Hne Hnotin. unfold compute_checksum, slice_from. simpl drop. rewrite drop_0.
  rewrite bytes_split1_nosep by assumption. simpl.
  destruct body as [|c body]; [contradiction|]. apply reduce_xor_fold.
Qed.

(** C4, at the input [b"!*00"]: no byte lies between the sentinel and the
    ['*'], the XOR of that empty run is [0], and [reduce] without an initial
    value raises [TypeError] instead of returning it. *)
Theorem compute_checksum_empty_run :
  compute_checksum (B "!*00") = Raise TypeError /\
  B "!*00" = "!"%byte :: [] ++ "*"%byte :: B "00" /\
  xor_fold [] = 0.
Proof. repeat split. Qed.

Lemma bytes_split1_app (sep : byte) (pre s : bytes) :
  sep ∉ pre ->
  exists z fs, bytes_split1 sep s = z :: fs /\
               bytes_split1 sep (pre ++ s) = (pre ++ z) :: fs.
Proof.
  induction pre as [|c pre IH]; intros Hnotin.
  - destruct s as [|c s]; simpl; [eauto|].
    destruct (Byte.eqb c sep); [eauto|].
    destruct (bytes_split1 sep s); eauto.
  - destruct IH as (z & fs & E1 & E2).
    { intros Hin. apply Hnotin. now right. }
    exists z, fs. split; [exact E1|]. simpl.
    rewrite eqb_neq by (intros ->; apply Hnotin; left). now rewrite E2.
Qed.

Lemma xor_fold_app (s t : bytes) :
  xor_fold (s ++ t) = Z.lxor (xor_fold s) (xor_fold t).
Proof.
  unfold xor_fold. induction s as [|c s IH]; simpl; [reflexivity|].
  rewrite fmap_app in *. simpl in IH. now rewrite IH, Z.lxor_assoc.
Qed.

Lemma lxor_cancel_l (a x y : Z) : Z.lxor a x = Z.lxor a y -> x = y.
Proof.
  intros H. apply (f_equal (Z.lxor a)) in H.
  now rewrite <- !Z.lxor_assoc, Z.lxor_nilpotent, !Z.lxor_0_l in H.
Qed.

Lemma lxor_cancel_r (a x y : Z) : Z.lxor x a = Z.lxor y a -> x = y.
Proof. rewrite !(Z.lxor_comm _ a). apply lxor_cancel_l. Qed.

(** The checksum of a sentence, split at a byte [b] that precedes every
    ['*']: the bytes after [b] contribute the same amount [tail] whatever
    [b] is. *)
Lemma compute_checksum_at (s0 : byte) (pre : bytes) (b : byte) (post : bytes) :
  "*"%byte ∉ pre ++ [b] ->
  compute_checksum (s0 :: pre ++ b :: post) =
  Ok (Z.lxor (xor_fold pre)
        (Z.lxor (ord b) (xor_fold (default [] (head (bytes_split1 "*" post)))))).
Proof.
  intros Hnotin. unfold compute_checksum, slice_from. simpl drop. rewrite drop_0.
  replace (pre ++ b :: post) with ((pre ++ [b]) ++ post)
    by (now rewrite <- app_assoc).
  destruct (bytes_split1_app "*" (pre ++ [b]) post Hnotin) as (z & fs & E1 & E2).
  rewrite E1, E2. simpl.
  destruct ((pre ++ [b]) ++ z) as [|c s] eqn:E.
  { destruct pre; discriminate. }
  rewrite reduce_xor_fold, <- E, !xor_fold_app. f_equal.
  rewrite Z.lxor_assoc. do 2 f_equal.
  unfold xor_fold. simpl. apply Z.lxor_0_r.
Qed.

(** ** [int()] *)

Ltac leb_cases :=
  repeat match goal with
         | |- context [?a <=? ?b] => destruct (Z.leb_spec a b)
         end; cbn [andb orb negb].

Lemma digit_value_hex (c : byte) :
  digit_value c < 16 ->
  48 <= ord c <= 57 \/ 97 <= ord c <= 102 \/ 65 <= ord c <= 70.
Proof.
  unfold digit_value. generalize (ord c). intros o.
  leb_cases; lia.
Qed.

Lemma digit_value_nonneg (c : byte) : 0 <= digit_value c.
Proof.
  unfold digit_value. generalize (ord c). intros o.
  leb_cases; lia.
Qed.

Lemma is_hex_class (c : byte) :
  is_hex c = true ->
  py_isspace c = false /\ is_char c 43 = false /\ is_char c 45 = false /\
  is_char c 95 = false /\ is_char c 120 = false /\ is_char c 88 = false /\
  0 <= digit_value c < 16.
Proof.
  unfold is_hex. intros Hlt. apply Z.ltb_lt in Hlt.
  pose proof (digit_value_hex c Hlt) as R.
  pose proof (digit_value_nonneg c) as N.
  unfold py_isspace, is_char. revert R. generalize (ord c). intros o R.
  repeat split; try lia; try (apply Z.eqb_neq; lia).
Qed.

Lemma py_int_hex2 (h1 h2 : byte) :
  is_hex h1 = true -> is_hex h2 = true -> py_int 16 [h1; h2] = Ok (hex2 h1 h2).
Proof.
  intros H1 H2.
  destruct (is_hex_class h1 H1) as (S1 & P1 & M1 & U1 & _ & _ & D1).
  destruct (is_hex_class h2 H2) as (S2 & P2 & M2 & U2 & X2 & X2' & D2).
  unfold is_hex in H1, H2.
  unfold py_int. cbn [lstrip]. rewrite S1.
  unfold strip_sign. rewrite P1, M1.
  unfold strip_base_prefix. rewrite X2, X2'.
  cbn [orb andb Z.eqb Pos.eqb]. rewrite andb_false_r, U1.
  cbn [scan_digits]. rewrite U1, H1, U2, H2. cbn [lstrip].
  unfold hex2. f_equal. lia.
Qed.

Lemma lstrip_decomp (s : bytes) :
  exists ws, s = ws ++ lstrip s /\ Forall (fun c => py_isspace c = true) ws.
Proof.
  induction s as [|c s (ws & E & F)]; simpl.
  - exists []. split; [reflexivity|constructor].
  - destruct (py_isspace c) eqn:Hc.
    + exists (c :: ws). split; [simpl; now f_equal|now constructor].
    + exists []. split; [reflexivity|constructor].
Qed.

Lemma scan_digits_decomp (base : Z) (s : bytes) :
  forall prev_us acc n v n' rest,
    scan_digits base s prev_us acc n = Some (v, n', rest) ->
    exists ds, s = ds ++ rest /\
      Forall (fun c => is_char c 95 = true \/ digit_value c < base) ds.
Proof.
  induction s as [|c s IH]; intros prev_us acc n v n' rest; simpl.
  - destruct prev_us; [discriminate|]. intros [= <- <- <-].
    exists []. split; [reflexivity|constructor].
  - destruct (is_char c 95) eqn:Hus.
    + destruct prev_us; [discriminate|]. intros H.
      destruct (IH _ _ _ _ _ _ H) as (ds & -> & F).
      exists (c :: ds). split; [reflexivity|]. constructor; auto.
    + destruct (Z.ltb_spec (digit_value c) base) as [Hlt|Hge].
      * intros H. destruct (IH _ _ _ _ _ _ H) as (ds & -> & F).
        exists (c :: ds). split; [reflexivity|]. constructor; auto.
      * destruct prev_us; [discriminate|]. intros [= <- <- <-].
        exists []. split; [reflexivity|constructor].
Qed.

Lemma is_char_star (k : Z) : k <> 42 -> is_char "*" k = false.
Proof. intros H. unfold is_char. apply Z.eqb_neq. now change (ord "*") with 42. Qed.

Lemma strip_sign_star (s : bytes) :
  "*"%byte ∈ s -> "*"%byte ∈ (strip_sign s).2.
Proof.
  destruct s as [|c r]; [intros H; inversion H|]. unfold strip_sign.
  intros H. apply elem_of_cons in H as [<-|H]; [simpl; left|].
  destruct (is_char c 43); [exact H|].
  destruct (is_char c 45); [exact H|]. simpl. now right.
Qed.

Lemma strip_base_prefix_star (base : Z) (s : bytes) :
  "*"%byte ∈ s -> "*"%byte ∈ strip_base_prefix base s.
Proof.
  unfold strip_base_prefix.
  destruct s as [|c0 [|c1 r]]; try (intros H; exact H).
  match goal with |- context [if ?t then _ else _] => destruct t eqn:Ht end;
    [|intros H; exact H].
  intros H. apply elem_of_cons in H as [<-|H].
  { rewrite is_char_star in Ht by lia. discriminate Ht. }
  apply elem_of_cons in H as [<-|H].
  { rewrite !is_char_star in Ht by lia.
    rewrite !andb_false_r in Ht. discriminate Ht. }
  destruct r as [|u r']; [exact H|].
  destruct (is_char u 95) eqn:Hu; [|exact H].
  apply elem_of_cons in H as [<-|H]; [|exact H].
  rewrite is_char_star in Hu by lia. discriminate Hu.
Qed.

(** A literal that contains ['*'] is never accepted. *)
Lemma py_int_rejects_star (base : Z) (s : bytes) :
  base <= 36 -> "*"%byte ∈ s -> forall v, py_int base s <> Ok v.
Proof.
  intros Hbase Hin v0. unfold py_int.
  destruct (lstrip_decomp s) as (ws & E & F).
  assert ("*"%byte ∈ lstrip s) as H1.
  { rewrite E in Hin. apply elem_of_app in Hin as [Hin|Hin]; [|exact Hin].
    rewrite Forall_forall in F. specialize (F _ Hin). discriminate F. }
  apply strip_sign_star in H1. destruct (strip_sign (lstrip s)) as [sign s2].
  apply (strip_base_prefix_star base) in H1. simpl in H1.
  destruct (strip_base_prefix base s2) as [|c s3] eqn:E3; [discriminate|].
  destruct (is_char c 95); [discriminate|].
  destruct (scan_digits base (c :: s3) false 0 0) as [[[v n] rest]|] eqn:Es;
    [|discriminate].
  destruct (over_digit_limit base n); [discriminate|].
  destruct n as [|n]; [discriminate|].
  destruct (scan_digits_decomp _ _ _ _ _ _ _ _ Es) as (ds & Eds & Fds).
  rewrite Eds in H1. apply elem_of_app in H1 as [H1|H1].
  - rewrite Forall_forall in Fds. destruct (Fds _ H1) as [Hus|Hd].
    + rewrite is_char_star in Hus by lia. discriminate Hus.
    + change (digit_value "*") with 37 in Hd. lia.
  - destruct (lstrip_decomp rest) as (ws' & E' & F').
    destruct (lstrip rest) eqn:El; [|discriminate].
    rewrite app_nil_r in E'. subst ws'.
    rewrite Forall_forall in F'. specialize (F' _ H1). discriminate F'.
Qed.

(** ** [NMEAMessage.__init__] *)

Section InitProperties.
Variable decode_into_bit_array : bytes -> result bitarray.
Variable get_int : bitarray -> Z -> Z -> result Z.

Local Abbreviation init := (NMEAMessage_init decode_into_bit_array get_int).

Lemma init_encapsulated (r : bytes) :
  init ("!"%byte :: r) =
  init_fields decode_into_bit_array get_int ("!"%byte :: r)
    (bytes_split "," ("!"%byte :: r)).
Proof.
  unfold NMEAMessage_init.
  destruct (bytes_split_head "," "!" r) as (f & fs & E); [discriminate|].
  rewrite E. reflexivity.
Qed.

(** Any first byte other than ['!'] and [','] ends construction at line 40
    with only [raw] stored. *)
Lemma init_ignored (c : byte) (r : bytes) :
  c <> "!"%byte -> c <> ","%byte -> init (c :: r) = Ok (blank (c :: r)).
Proof.
  intros Hbang Hcomma. unfold NMEAMessage_init.
  destruct (bytes_split_head "," c r Hcomma) as (f & fs & E).
  rewrite E. simpl.
  destruct (ord c =? 33) eqn:Ec; [|reflexivity].
  apply Z.eqb_eq in Ec. destruct Hbang. now apply ord_inj.
Qed.

(** C7, at the input [b",abc"]: the first byte is not ['!'], yet line 39
    indexes the empty first field and raises [IndexError] instead of
    returning the ignored message required by the comment on line 38. *)
Theorem init_comma_first_raises :
  init (B ",abc") = Raise IndexError /\
  head (B ",abc") <> Some "!"%byte /\ B ",abc" <> [].
Proof. repeat split; discriminate. Qed.

(** C8: an input whose first byte is ['!'] and that does not split on [',']
    into exactly seven fields is rejected with the framing [ValueError]. *)
Theorem init_not_seven_fields (raw : bytes) :
  head raw = Some "!"%byte ->
  length (bytes_split "," raw) <> 7%nat ->
  init raw = Raise (ValueError NotSevenFields).
Proof.
  intros Hhead Hlen. destruct raw as [|c r]; [discriminate|].
  injection Hhead as ->. rewrite init_encapsulated. unfold init_fields.
  apply Nat.eqb_neq in Hlen. now rewrite Hlen.
Qed.

(** C10: on the empty input and on any input whose first comma-field is
    empty, construction raises [IndexError] at the sentinel test; it neither
    returns the ignored message nor raises one of its own [ValueError]s. *)
Theorem init_empty_first_field (raw : bytes) :
  raw = [] \/ bytes_split "," raw !! 0%nat = Some [] ->
  init raw = Raise IndexError.
Proof.
  intros H.
  assert (bytes_split "," raw !! 0%nat = Some []) as E
    by (destruct H as [->|H]; [reflexivity|exact H]).
  unfold NMEAMessage_init, getitem. cbv zeta. rewrite E. reflexivity.
Qed.

(** What [unpack] stores when lines 46-69 run to completion. *)
Lemma unpack_Ok (raw0 : bytes) (values : list bytes) (self : NMEAMessage) :
  unpack raw0 values = Ok self ->
  exists f1 f2 f3 f4 f5 f6 f7 tk mt c i d,
    values = [f1; f2; f3; f4; f5; f6; f7] /\
    decode_ascii (slice f1 1 3) = Ok tk /\
    decode_ascii (slice_from f1 3) = Ok mt /\
    py_int 10 f2 = Ok c /\ py_int 10 f3 = Ok i /\
    py_int 16 (slice_from f7 2) = Ok d /\
    self = mkNMEA None raw0 (Some tk) (Some mt) (Some c) (Some i) (Some f4)
             (Some f5) (Some f6) (Some d) None.
Proof.
  destruct values as [|f1 [|f2 [|f3 [|f4 [|f5 [|f6 [|f7 [|]]]]]]]];
    try discriminate.
  unfold unpack. intros H.
  inv_bind H. inv_bind H. inv_bind H. inv_bind H. inv_bind H.
  injection H as <-.
  exists f1, f2, f3, f4, f5, f6, f7. eauto 15.
Qed.

Lemma is_valid_true (self : NMEAMessage) :
  is_valid self = Ok true ->
  exists d, checksum self = Some d /\ compute_checksum (raw self) = Ok d.
Proof.
  unfold is_valid. intros H. inv_bind H. injection H as H.
  apply bool_decide_eq_true in H. eauto.
Qed.

(** A constructed frame is what [unpack] stored, validated, plus the bits
    and the message id. *)
Lemma init_fields_Ok (raw0 : bytes) (values : list bytes) (fr : NMEAMessage) :
  init_fields decode_into_bit_array get_int raw0 values = Ok fr ->
  exists self payload bits id,
    unpack raw0 values = Ok self /\ is_valid self = Ok true /\
    data self = Some payload /\ decode_into_bit_array payload = Ok bits /\
    get_int bits 0 6 = Ok id /\
    fr = set_ais_id (Some id) (set_bit_array (Some bits) self).
Proof.
  unfold init_fields. destruct (negb _); [discriminate|]. intros H.
  inv_bind H. inv_bind H. destruct a0; simpl in H; [|discriminate].
  destruct (data a) as [payload|] eqn:Ed; [|discriminate].
  inv_bind H. inv_bind H. injection H as <-.
  exists a, payload, a0, a1. auto 10.
Qed.

(** C5: for an input that begins with ['!'] and has seven comma-fields, a
    frame is only constructed with its stored checksum equal to the
    checksum computed over the raw line; once lines 58-69 have stored the
    fields, a stored checksum that differs from the computed one makes
    construction raise the checksum [ValueError]. *)
Theorem init_checksum_enforced (raw0 : bytes) :
  head raw0 = Some "!"%byte ->
  length (bytes_split "," raw0) = 7%nat ->
  (forall fr, init raw0 = Ok fr ->
     raw fr = raw0 /\
     exists d, checksum fr = Some d /\ compute_checksum raw0 = Ok d) /\
  (forall self d c,
     unpack raw0 (bytes_split "," raw0) = Ok self ->
     checksum self = Some d -> compute_checksum raw0 = Ok c -> d <> c ->
     init raw0 = Raise (ValueError InvalidChecksum)).
Proof.
  intros Hhead Hlen. destruct raw0 as [|b r]; [discriminate|].
  injection Hhead as ->. rewrite init_encapsulated. split.
  - intros fr H.
    destruct (init_fields_Ok _ _ _ H) as (self & p & bits & id & Hu & Hv & _ & _ & _ & ->).
    destruct (is_valid_true _ Hv) as (d & Hd & Hc).
    destruct (unpack_Ok _ _ _ Hu) as (? & ? & ? & ? & ? & ? & ? & ? & ? & ? & ? & ? & _ & _ & _ & _ & _ & _ & ->).
    simpl in *. eauto.
  - intros self d c Hu Hd Hc Hne. unfold init_fields. rewrite Hlen, Hu. simpl.
    unfold is_valid.
    destruct (unpack_Ok _ _ _ Hu) as (? & ? & ? & ? & ? & ? & ? & ? & ? & ? & ? & ? & _ & _ & _ & _ & _ & _ & ->).
    simpl in *. rewrite Hc. simpl.
    rewrite bool_decide_eq_false_2; [reflexivity|]. congruence.
Qed.

(** C2: in an accepted sentence whose seventh field is a non-empty
    pad-count prefix, ['*'] and two hexadecimal digits, the stored checksum
    is the value of those two digits. *)
Theorem init_checksum_two_hex_digits (raw0 : bytes) (fr : NMEAMessage)
    (pre : bytes) (h1 h2 : byte) :
  head raw0 = Some "!"%byte ->
  init raw0 = Ok fr ->
  bytes_split "," raw0 !! 6%nat = Some (pre ++ "*"%byte :: [h1; h2]) ->
  pre <> [] ->
  is_hex h1 = true -> is_hex h2 = true ->
  checksum fr = Some (hex2 h1 h2).
Proof.
  intros Hhead Hinit H7 Hpre Hh1 Hh2.
  destruct raw0 as [|c r]; [discriminate|]. injection Hhead as ->.
  rewrite init_encapsulated in Hinit.
  destruct (init_fields_Ok _ _ _ Hinit)
    as (self & p & bits & id & Hu & _ & _ & _ & _ & ->).
  destruct (unpack_Ok _ _ _ Hu)
    as (f1 & f2 & f3 & f4 & f5 & f6 & f7 & tk & mt & cn & ix & d & E
        & _ & _ & _ & _ & Hd & ->).
  rewrite E in H7. injection H7 as ->. simpl.
  unfold slice_from in Hd.
  destruct pre as [|p0 [|p1 pre]]; [contradiction| |].
  - simpl in Hd. rewrite py_int_hex2 in Hd by assumption. congruence.
  - simpl in Hd. rewrite drop_0 in Hd.
    exfalso. apply (py_int_rejects_star 16 (pre ++ "*"%byte :: [h1; h2])) with d;
      [lia| |exact Hd].
    apply elem_of_app. right. left.
Qed.

(** C3: in a sentence that parses to a frame and has no ['*'] up to and
    including some payload byte, replacing that byte by a different byte
    other than [','] and ['*'] gives a sentence that is rejected with the
    checksum [ValueError]. *)
Theorem payload_flip_rejected (raw0 : bytes) (fr : NMEAMessage)
    (f1 f2 f3 f4 f5 p1 p2 f7 : bytes) (b b' : byte) :
  head raw0 = Some "!"%byte ->
  init raw0 = Ok fr ->
  bytes_split "," raw0 = [f1; f2; f3; f4; f5; p1 ++ b :: p2; f7] ->
  "*"%byte ∉ bytes_join "," [f1; f2; f3; f4; f5; p1 ++ [b]] ->
  b' <> b -> b' <> ","%byte -> b' <> "*"%byte ->
  init (bytes_join "," [f1; f2; f3; f4; f5; p1 ++ b' :: p2; f7])
  = Raise (ValueError InvalidChecksum).
Proof.
  intros Hhead Hinit Esplit Hstar Hb Hcomma Hbstar.
  pose proof (bytes_join_split "," raw0) as Eraw. rewrite Esplit in Eraw.
  pose proof (bytes_split_no_sep "," raw0) as Hsep. rewrite Esplit in Hsep.
  destruct f1 as [|c t].
  { rewrite <- Eraw in Hhead. discriminate Hhead. }
  assert (c = "!"%byte) as -> by (rewrite <- Eraw in Hhead; now injection Hhead).
  set (pre := t ++ ","%byte :: f2 ++ ","%byte :: f3 ++ ","%byte :: f4
                ++ ","%byte :: f5 ++ ","%byte :: p1).
  set (post := p2 ++ ","%byte :: f7).
  assert (forall x, bytes_join "," ["!"%byte :: t; f2; f3; f4; f5; p1 ++ x :: p2; f7]
                    = "!"%byte :: pre ++ x :: post) as Ejoin.
  { intros x. subst pre post. cbn [bytes_join].
    repeat (rewrite <- app_assoc; cbn [app]). reflexivity. }
  assert ("*"%byte ∉ pre ++ [b]) as Hpre.
  { intros Hin. apply Hstar. subst pre. cbn [bytes_join].
    right. revert Hin. repeat (rewrite <- app_assoc; cbn [app]). auto. }
  assert ("*"%byte ∉ pre ++ [b']) as Hpre'.
  { intros Hin. apply elem_of_app in Hin as [Hin|Hin].
    - apply Hpre, elem_of_app. now left.
    - apply list_elem_of_singleton in Hin. congruence. }
  (* the original sentence *)
  rewrite <- Eraw, Ejoin in Hinit. rewrite init_encapsulated in Hinit.
  destruct (init_fields_Ok _ _ _ Hinit)
    as (self & pl & bits & id & Hu & Hv & _ & _ & _ & _).
  rewrite <- Ejoin, Eraw, Esplit in Hu.
  destruct (unpack_Ok _ _ _ Hu)
    as (g1 & g2 & g3 & g4 & g5 & g6 & g7 & tk & mt & cn & ix & d & E
        & Htk & Hmt & Hcn & Hix & Hd & ->).
  injection E as <- <- <- <- <- <- <-.
  destruct (is_valid_true _ Hv) as (d' & Ed & Hc). simpl in Ed, Hc.
  injection Ed as <-. rewrite <- Eraw, Ejoin, compute_checksum_at in Hc by assumption.
  injection Hc as Hc.
  (* the modified sentence *)
  assert (bytes_split "," (bytes_join "," ["!"%byte :: t; f2; f3; f4; f5; p1 ++ b' :: p2; f7])
          = ["!"%byte :: t; f2; f3; f4; f5; p1 ++ b' :: p2; f7]) as Esplit'.
  { apply bytes_split_join; [discriminate|].
    rewrite !Forall_cons in Hsep.
    destruct Hsep as (S1 & S2 & S3 & S4 & S5 & S6 & S7 & _).
    repeat (apply Forall_cons; split); try assumption; [|constructor].
    intros Hin. apply elem_of_app in Hin as [Hin|Hin].
    - apply S6, elem_of_app. now left.
    - apply elem_of_cons in Hin as [Hin|Hin]; [congruence|].
      apply S6, elem_of_app. right. now right. }
  rewrite Ejoin in Esplit' |- *. rewrite init_encapsulated, Esplit'.
  unfold init_fields, unpack. cbn [length Nat.eqb negb].
  rewrite Htk, Hmt, Hcn, Hix, Hd. cbn [mbind result_bind mret result_ret].
  unfold is_valid. cbn [raw checksum].
  rewrite compute_checksum_at by assumption.
  cbn [mbind result_bind mret result_ret].
  rewrite bool_decide_eq_false_2; [reflexivity|].
  intros [= Heq]. rewrite <- Hc in Heq.
  apply lxor_cancel_l, lxor_cancel_r, ord_inj in Heq. congruence.
Qed.
End InitProperties.

(** ** [assemble_from_iterable] *)

Lemma assemble_loop_Ok (h : heap) (messages : list loc) :
  Forall (fun l => is_Some (data (h l)) /\ is_Some (bit_array (h l))) messages ->
  forall acc_raw acc_data acc_bits,
    assemble_loop h messages acc_raw acc_data acc_bits =
    Ok (acc_raw ++ concat ((fun l => raw (h l)) <$> messages),
        acc_data ++ concat ((fun l => payload (h l)) <$> messages),
        acc_bits ++ concat ((fun l => bits (h l)) <$> messages)).
Proof.
  induction 1 as [|l ls [[d Hd] [bs Hb]] _ IH]; intros acc_raw acc_data acc_bits;
    simpl.
  - now rewrite !app_nil_r.
  - unfold payload, bits. rewrite Hd, Hb. simpl. rewrite IH.
    now rewrite <- !app_assoc.
Qed.

Lemma store_eq (h : heap) (l : loc) (m : NMEAMessage) : store h l m l = m.
Proof. unfold store. now rewrite decide_True. Qed.

Lemma store_ne (h : heap) (l l' : loc) (m : NMEAMessage) :
  l' <> l -> store h l m l' = h l'.
Proof. intros H. unfold store. now rewrite decide_False. Qed.

(** The three attribute stores of lines 118-120, in one. *)
Lemma assemble_from_iterable_Ok (h h' : heap) (messages : list loc) (r : loc) :
  assemble_from_iterable h messages = Ok (h', r) ->
  exists acc_raw acc_data acc_bits,
    assemble_loop h messages [] [] [] = Ok (acc_raw, acc_data, acc_bits) /\
    head messages = Some r /\
    (forall l, l <> r -> h' l = h l) /\
    h' r = set_bit_array (Some acc_bits)
             (set_data (Some acc_data) (set_raw acc_raw (h r))).
Proof.
  unfold assemble_from_iterable. intros H. inv_bind H.
  destruct a as [[acc_raw acc_data] acc_bits]. inv_bind H.
  injection H as <- <-. exists acc_raw, acc_data, acc_bits.
  split; [assumption|]. split.
  { destruct messages; [discriminate|]. unfold getitem in Ha0. simpl in *. congruence. }
  split.
  - intros l Hl. now rewrite !store_ne.
  - now rewrite !store_eq.
Qed.

Section Assembly.
Variable decode_into_bit_array : bytes -> result bitarray.
Variable get_int : bitarray -> Z -> Z -> result Z.

Lemma parsed_frame_fields (m : NMEAMessage) :
  parsed_frame decode_into_bit_array get_int m ->
  is_Some (data m) /\ is_Some (bit_array m).
Proof.
  intros (raw0 & Hhead & Hinit).
  destruct raw0 as [|c r]; [discriminate|]. injection Hhead as ->.
  rewrite init_encapsulated in Hinit.
  destruct (init_fields_Ok _ _ _ _ _ Hinit)
    as (self & pl & bs & id & _ & _ & Hd & _ & _ & ->).
  simpl. rewrite Hd. eauto.
Qed.

(** C6: assembling a non-empty sequence of valid parsed frames succeeds;
    raw bytes, payload bytes and bit stream of the result are the
    concatenations, in the order given, of those of the input frames, and
    the framing metadata is that of the first fragment. *)
Theorem assemble_concatenates (h : heap) (messages : list loc) (first : loc) :
  head messages = Some first ->
  Forall (fun l => parsed_frame decode_into_bit_array get_int (h l)) messages ->
  exists h' r,
    assemble_from_iterable h messages = Ok (h', r) /\
    raw (h' r) = concat ((fun l => raw (h l)) <$> messages) /\
    data (h' r) = Some (concat ((fun l => payload (h l)) <$> messages)) /\
    bit_array (h' r) = Some (concat ((fun l => bits (h l)) <$> messages)) /\
    talker (h' r) = talker (h first) /\
    msg_type (h' r) = msg_type (h first) /\
    count (h' r) = count (h first) /\
    index (h' r) = index (h first) /\
    seq_id (h' r) = seq_id (h first) /\
    channel (h' r) = channel (h first).
Proof.
  intros Hfirst Hall.
  assert (Forall (fun l => is_Some (data (h l)) /\ is_Some (bit_array (h l)))
            messages) as Hfields.
  { eapply Forall_impl; [exact Hall|]. intros l. apply parsed_frame_fields. }
  destruct messages as [|l ls]; [discriminate|]. injection Hfirst as ->.
  unfold assemble_from_iterable.
  rewrite (assemble_loop_Ok _ _ Hfields). simpl.
  eexists _, _. split; [reflexivity|].
  rewrite !store_eq. simpl. repeat split.
Qed.
End Assembly.

(** What the loop has accumulated when it ends without an exception. *)
Lemma assemble_loop_result (h : heap) (messages : list loc) :
  forall acc_raw acc_data acc_bits res_raw res_data res_bits,
    assemble_loop h messages acc_raw acc_data acc_bits
    = Ok (res_raw, res_data, res_bits) ->
    res_raw = acc_raw ++ concat ((fun l => raw (h l)) <$> messages) /\
    res_data = acc_data ++ concat ((fun l => payload (h l)) <$> messages) /\
    res_bits = acc_bits ++ concat ((fun l => bits (h l)) <$> messages).
Proof.
  induction messages as [|l ls IH];
    intros acc_raw acc_data acc_bits res_raw res_data res_bits; simpl.
  - intros [= <- <- <-]. now rewrite !app_nil_r.
  - unfold payload at 1, bits at 1.
    destruct (data (h l)) as [d|]; [|discriminate].
    destruct (bit_array (h l)) as [b|]; [|discriminate]. simpl.
    intros H. apply IH in H as (-> & -> & ->).
    now rewrite <- !app_assoc.
Qed.

(** C1: a successful call returns the first element of the sequence, not a
    new object.  Its [raw], [data] and [bit_array] are overwritten with the
    concatenations, in the order given, of what the messages of the
    sequence held before the call; its other attributes and every other
    object are left as they were. *)
Theorem assemble_writes_first_only (h h' : heap) (messages : list loc) (r : loc) :
  assemble_from_iterable h messages = Ok (h', r) ->
  head messages = Some r /\
  (forall l, l <> r -> h' l = h l) /\
  raw (h' r) = concat ((fun l => raw (h l)) <$> messages) /\
  data (h' r) = Some (concat ((fun l => payload (h l)) <$> messages)) /\
  bit_array (h' r) = Some (concat ((fun l => bits (h l)) <$> messages)) /\
  ais_id (h' r) = ais_id (h r) /\ talker (h' r) = talker (h r) /\
  msg_type (h' r) = msg_type (h r) /\ count (h' r) = count (h r) /\
  index (h' r) = index (h r) /\ seq_id (h' r) = seq_id (h r) /\
  channel (h' r) = channel (h r) /\ checksum (h' r) = checksum (h r).
Proof.
  intros H.
  destruct (assemble_from_iterable_Ok _ _ _ _ H)
    as (acc_raw & acc_data & acc_bits & Hloop & Hhead & Hother & ->).
  apply assemble_loop_result in Hloop as (-> & -> & ->).
  split; [exact Hhead|]. split; [exact Hother|].
  cbn [raw data bit_array ais_id talker msg_type count index seq_id channel
       checksum set_raw set_data set_bit_array app].
  split; [reflexivity|]. split; [reflexivity|]. split; [reflexivity|].
  split; [reflexivity|]. split; [reflexivity|]. split; [reflexivity|].
  split; [reflexivity|]. split; [reflexivity|]. split; [reflexivity|].
  split; reflexivity.
Qed.

(** ** [AISMessage.__getitem__] *)

(** C9: the lookup is a total function of the message and the field name;
    it yields the mapped value when the name is present, and [None] when the
    name is missing or the message has no content. *)
Theorem getitem_lookup {value : Type} (self : AISMessage value) (item : string) :
  (forall d v, content self = Some d -> d !! item = Some v ->
               AISMessage_getitem self item = v) /\
  (forall d, content self = Some d -> d !! item = None ->
             AISMessage_getitem self item = PyNone) /\
  (content self = None -> AISMessage_getitem self item = PyNone).
Proof.
  unfold AISMessage_getitem, dict_get. repeat split.
  - intros d v -> ->. reflexivity.
  - intros d -> ->. reflexivity.
  - intros ->. reflexivity.
Qed.

(** * The theorems at concrete sentences *)

Lemma frame_of_fragment1 : NMEAMessage_new fragment1 = Ok (frame_of fragment1).
Proof. vm_compute. reflexivity. Qed.

Lemma frame_of_fragment2 : NMEAMessage_new fragment2 = Ok (frame_of fragment2).
Proof. vm_compute. reflexivity. Qed.

Lemma two_fragments_parsed :
  Forall (fun l => parsed_frame unarm get_uint (two_fragments l)) [0; 1]%nat.
Proof.
  repeat constructor.
  - exists fragment1. split; [reflexivity|exact frame_of_fragment1].
  - exists fragment2. split; [reflexivity|exact frame_of_fragment2].
Qed.

Lemma assemble_two_fragments :
  exists h', assemble_from_iterable two_fragments [0; 1]%nat = Ok (h', 0%nat) /\
             h' 0%nat =
             set_bit_array (Some (bits (frame_of fragment1) ++ bits (frame_of fragment2)))
               (set_data (Some (payload (frame_of fragment1) ++ payload (frame_of fragment2)))
                  (set_raw (fragment1 ++ fragment2) (frame_of fragment1))).
Proof.
  eexists. split.
  - unfold assemble_from_iterable. rewrite assemble_loop_Ok.
    + reflexivity.
    + eapply Forall_impl; [exact two_fragments_parsed|].
      intros l. apply parsed_frame_fields.
  - rewrite !store_eq. vm_compute. reflexivity.
Qed.

(** C1 fails as stated: after assembling the two fragments, the first input
    object is the returned one and its [raw], [data] and [bit_array] are no
    longer those it had before the call. *)
Lemma assemble_overwrites_first_fragment :
  exists h', assemble_from_iterable two_fragments [0; 1]%nat = Ok (h', 0%nat) /\
             raw (h' 0%nat) <> raw (two_fragments 0%nat) /\
             data (h' 0%nat) <> data (two_fragments 0%nat) /\
             bit_array (h' 0%nat) <> bit_array (two_fragments 0%nat).
Proof.
  destruct assemble_two_fragments as (h' & E & E0). exists h'.
  split; [exact E|]. rewrite E0. repeat split; vm_compute; discriminate.
Qed.

Lemma assemble_writes_first_only_witness :
  exists h', assemble_from_iterable two_fragments [0; 1]%nat = Ok (h', 0%nat) /\
             (forall l, l <> 0%nat -> h' l = two_fragments l) /\
             raw (h' 0%nat) = fragment1 ++ fragment2 /\
             data (h' 0%nat) =
               Some (B "55P5TL01VIaAL@7WKO@mBplU@<PDhh000000001S;AJ::4A80?4i@E53"
                     ++ B "1@0000000000000") /\
             checksum (h' 0%nat) = checksum (two_fragments 0%nat).
Proof.
  destruct assemble_two_fragments as (h' & E & _). exists h'.
  split; [exact E|].
  destruct (assemble_writes_first_only two_fragments h' [0; 1]%nat 0%nat E)
    as (_ & Hother & Hraw & Hdata & _ & _ & _ & _ & _ & _ & _ & _ & Hck).
  split; [exact Hother|]. split; [rewrite Hraw; reflexivity|].
  split; [rewrite Hdata; reflexivity|exact Hck].
Defined.

(** C2 fails as stated for an empty pad-count prefix: the sentence is
    accepted, its seventh field is ['*'] followed by the digits [1A], and the
    stored checksum is 10, not 26. *)
Lemma empty_pad_count_checksum :
  bytes_split "," empty_pad_count !! 6%nat = Some ([] ++ "*"%byte :: ["1"%byte; "A"%byte]) /\
  is_hex "1" = true /\ is_hex "A" = true /\ hex2 "1" "A" = 26 /\
  exists fr, NMEAMessage_new empty_pad_count = Ok fr /\ checksum fr = Some 10.
Proof.
  repeat split. exists (frame_of empty_pad_count).
  split; vm_compute; reflexivity.
Qed.

Lemma init_checksum_two_hex_digits_witness :
  checksum (frame_of fragment2) = Some (hex2 "5" "5").
Proof.
  apply (init_checksum_two_hex_digits unarm get_uint fragment2 (frame_of fragment2)
           [("2")%byte] "5" "5").
  - reflexivity.
  - exact frame_of_fragment2.
  - reflexivity.
  - discriminate.
  - reflexivity.
  - reflexivity.
Defined.

(** C3 fails as stated.  With ['*'] as sequence id the checksum stops
    before the payload, and the sentence is accepted before and after a
    payload byte is changed.  In ordinary sentences, changing a payload byte
    into [','] is rejected for the field count, and changing it into ['*']
    leaves the checksum matching. *)
Lemma payload_flip_not_rejected :
  (exists fr fr',
      NMEAMessage_new (B "!AIVDM,1,1,*,A,15M,0*7B") = Ok fr /\
      NMEAMessage_new (B "!AIVDM,1,1,*,A,25M,0*7B") = Ok fr') /\
  (exists fr,
      NMEAMessage_new (B "!AIVDM,1,1,,A,0Am,0*3A") = Ok fr /\
      NMEAMessage_new (B "!AIVDM,1,1,,A,0,m,0*3A") = Raise (ValueError NotSevenFields) /\
      NMEAMessage_new (B "!AIVDM,1,1,,A,*Am,0*3A") <> Raise (ValueError InvalidChecksum)).
Proof.
  split.
  - exists (frame_of (B "!AIVDM,1,1,*,A,15M,0*7B")),
      (frame_of (B "!AIVDM,1,1,*,A,25M,0*7B")).
    split; vm_compute; reflexivity.
  - exists (frame_of position_report).
    repeat split; vm_compute; try reflexivity; discriminate.
Qed.

Lemma payload_flip_rejected_witness :
  NMEAMessage_new (B "!AIVDM,2,2,3,B,1A0000000000000,2*55")
  = Raise (ValueError InvalidChecksum).
Proof.
  apply (payload_flip_rejected unarm get_uint fragment2 (frame_of fragment2)
           (B "!AIVDM") (B "2") (B "2") (B "3") (B "B") (B "1")
           (B "0000000000000") (B "2*55") "@" "A").
  - reflexivity.
  - exact frame_of_fragment2.
  - reflexivity.
  - vm_compute. intros H. repeat (apply elem_of_cons in H as [H|H]; [discriminate H|]).
    now apply not_elem_of_nil in H.
  - discriminate.
  - discriminate.
  - discriminate.
Defined.

(** C5 fails as stated when an earlier field does not parse: the sentence
    begins with ['!'], has seven fields, declares checksum [3A] (58) while
    the bytes up to ['*'] XOR to 115, and construction stops at [int(count)]
    with the invalid-literal [ValueError], not the checksum one. *)
Lemma checksum_mismatch_behind_bad_count :
  head bad_count = Some "!"%byte /\
  length (bytes_split "," bad_count) = 7%nat /\
  (exists f7, bytes_split "," bad_count !! 6%nat = Some f7 /\
              py_int 16 (slice_from f7 2) = Ok 58) /\
  compute_checksum bad_count = Ok 115 /\
  NMEAMessage_new bad_count = Raise (ValueError InvalidLiteral).
Proof.
  split; [reflexivity|]. split; [reflexivity|]. split.
  - exists (B "0*3A"). split; reflexivity.
  - split; reflexivity.
Qed.

Lemma init_checksum_enforced_witness :
  (raw (frame_of fragment2) = fragment2 /\
   exists d, checksum (frame_of fragment2) = Some d /\
             compute_checksum fragment2 = Ok d) /\
  NMEAMessage_new bad_checksum = Raise (ValueError InvalidChecksum).
Proof.
  split.
  - destruct (init_checksum_enforced unarm get_uint fragment2 eq_refl eq_refl)
      as [H _].
    apply H. exact frame_of_fragment2.
  - destruct (init_checksum_enforced unarm get_uint bad_checksum eq_refl eq_refl)
      as [_ H].
    apply (H (mkNMEA None bad_checksum (Some "AI"%string) (Some "VDM"%string)
                (Some 2) (Some 2) (Some (B "3")) (Some (B "B"))
                (Some (B "1@0000000000000")) (Some 86) None) 86 85);
      try reflexivity.
    discriminate.
Defined.

Lemma assemble_concatenates_witness :
  exists h' r,
    assemble_from_iterable two_fragments [0; 1]%nat = Ok (h', r) /\
    raw (h' r) = fragment1 ++ fragment2 /\
    talker (h' r) = Some "AI"%string /\ count (h' r) = Some 2 /\
    index (h' r) = Some 1 /\ seq_id (h' r) = Some (B "3") /\
    channel (h' r) = Some (B "B").
Proof.
  destruct (assemble_concatenates unarm get_uint two_fragments [0; 1]%nat 0%nat)
    as (h' & r & E & Hraw & _ & _ & Ht & _ & Hc & Hi & Hs & Hch).
  - reflexivity.
  - exact two_fragments_parsed.
  - exists h', r. split; [exact E|].
    rewrite Hraw, Ht, Hc, Hi, Hs, Hch. vm_compute. repeat split.
Defined.

Lemma init_not_seven_fields_witness :
  NMEAMessage_new six_fields = Raise (ValueError NotSevenFields).
Proof.
  apply (init_not_seven_fields unarm get_uint six_fields).
  - reflexivity.
  - vm_compute. discriminate.
Defined.

Lemma init_empty_first_field_witness :
  NMEAMessage_new [] = Raise IndexError /\
  NMEAMessage_new (B ",AIVDM,1,1,,A,15M,0*00") = Raise IndexError.
Proof.
  split.
  - apply (init_empty_first_field unarm get_uint []). left. reflexivity.
  - apply (init_empty_first_field unarm get_uint (B ",AIVDM,1,1,,A,15M,0*00")).
    right. apply bytes_split_first_empty. right. reflexivity.
Defined.

Lemma getitem_lookup_witness :
  let msg := mkAIS (frame_of position_report) 1 (Some {[ "type"%string := PyVal 1 ]}) in
  AISMessage_getitem msg "type" = PyVal 1 /\
  AISMessage_getitem msg "speed" = PyNone /\
  AISMessage_getitem (mkAIS (frame_of position_report) 1 None) "type" = @PyNone Z.
Proof.
  intros msg. split; [|split].
  - apply (getitem_lookup msg "type") with (d := {[ "type"%string := PyVal 1 ]});
      reflexivity.
  - apply (getitem_lookup msg "speed") with (d := {[ "type"%string := PyVal 1 ]});
      reflexivity.
  - now apply (getitem_lookup (mkAIS (frame_of position_report) 1 None) "type").
Defined.

(** * Further properties of the module *)

(** ** Outcomes of [NMEAMessage.__init__] *)

Section InitOutcomes.
Variable decode_into_bit_array : bytes -> result bitarray.
Variable get_int : bitarray -> Z -> Z -> result Z.

Local Abbreviation init := (NMEAMessage_init decode_into_bit_array get_int).

(** X1: an input whose first byte is neither ['!'] nor [','] is not parsed
    at all: construction returns the object that holds [raw] and nothing
    else. *)
Theorem init_other_sentinel_ignored (raw0 : bytes) (c : byte) :
  head raw0 = Some c -> c <> "!"%byte -> c <> ","%byte ->
  init raw0 = Ok (blank raw0).
Proof.
  intros Hhead Hbang Hcomma. destruct raw0 as [|c' r]; [discriminate|].
  injection Hhead as ->. now apply init_ignored.
Qed.

(** The four ways [__init__] can go, by the first byte of the input. *)
Lemma init_by_first_byte (raw0 : bytes) :
  (raw0 = [] /\ init raw0 = Raise IndexError) \/
  (head raw0 = Some ","%byte /\ init raw0 = Raise IndexError) \/
  (head raw0 = Some "!"%byte /\
   init raw0 = init_fields decode_into_bit_array get_int raw0 (bytes_split "," raw0)) \/
  (head raw0 <> Some "!"%byte /\ init raw0 = Ok (blank raw0)).
Proof.
  destruct raw0 as [|c r]; [left; split; reflexivity|]. right.
  destruct (Byte.byte_eq_dec c ","%byte) as [->|Hcomma].
  { left. split; [reflexivity|]. unfold NMEAMessage_init, getitem. cbv zeta.
    assert (bytes_split "," (","%byte :: r) !! 0%nat = Some []) as E
      by (apply bytes_split_first_empty; right; reflexivity).
    rewrite E. reflexivity. }
  right. destruct (Byte.byte_eq_dec c "!"%byte) as [->|Hbang].
  - left. split; [reflexivity|]. apply init_encapsulated.
  - right. split; [intros [= E]; contradiction|].
    now apply init_ignored.
Qed.

(** X3: construction never leaves a half-filled object.  Whatever it
    returns holds the input as [raw] and is either the ignored message, for
    an input that does not begin with ['!'], or a frame on which every
    attribute is set, for an input that does. *)
Theorem init_all_or_nothing (raw0 : bytes) (fr : NMEAMessage) :
  init raw0 = Ok fr ->
  raw fr = raw0 /\
  ((head raw0 <> Some "!"%byte /\ fr = blank raw0) \/
   (head raw0 = Some "!"%byte /\
    is_Some (ais_id fr) /\ is_Some (talker fr) /\ is_Some (msg_type fr) /\
    is_Some (count fr) /\ is_Some (index fr) /\ is_Some (seq_id fr) /\
    is_Some (channel fr) /\ is_Some (data fr) /\ is_Some (checksum fr) /\
    is_Some (bit_array fr))).
Proof.
  intros H.
  destruct (init_by_first_byte raw0)
    as [[_ E]|[[_ E]|[[Hhead E]|[Hhead E]]]]; rewrite E in H; try discriminate.
  - destruct (init_fields_Ok _ _ _ _ _ H)
      as (self & pl & bs & id & Hu & _ & _ & _ & _ & ->).
    destruct (unpack_Ok _ _ _ Hu)
      as (f1 & f2 & f3 & f4 & f5 & f6 & f7 & tk & mt & c & i & d & _
          & _ & _ & _ & _ & _ & ->).
    split; [reflexivity|]. right. split; [assumption|]. simpl.
    repeat split; eexists; reflexivity.
  - injection H as <-. split; [reflexivity|]. left. split; [assumption|reflexivity].
Qed.
End InitOutcomes.

(** ** The value and the range of [compute_checksum] *)

Lemma bytes_split1_run_before (sep : byte) (s : bytes) :
  exists rest, bytes_split1 sep s = run_before sep s :: rest.
Proof.
  induction s as [|c s (rest & IH)]; simpl; [eauto|].
  destruct (Byte.eqb c sep); [eauto|]. rewrite IH. eauto.
Qed.

Lemma compute_checksum_unfold (msg : bytes) :
  compute_checksum msg =
  match run_before "*" (slice_from msg 1) with
  | [] => Raise TypeError
  | run => Ok (xor_fold run)
  end.
Proof.
  unfold compute_checksum.
  destruct (bytes_split1_run_before "*" (slice_from msg 1)) as (rest & ->).
  generalize (run_before "*" (slice_from msg 1)). intros run.
  destruct run as [|c run]; [reflexivity|]. apply reduce_xor_fold.
Qed.

Lemma ord_byte_range (c : byte) : 0 <= ord c < 256.
Proof. unfold ord. pose proof (Byte.to_N_bounded c). lia. Qed.

Lemma lxor_byte_range (a b : Z) :
  0 <= a < 256 -> 0 <= b < 256 -> 0 <= Z.lxor a b < 256.
Proof.
  intros Ha Hb.
  assert (0 <= Z.lxor a b) as Hnn by (apply Z.lxor_nonneg; lia).
  split; [exact Hnn|].
  destruct (Z.eq_dec (Z.lxor a b) 0) as [->|Hne]; [lia|].
  change 256 with (2 ^ 8). apply Z.log2_lt_pow2; [lia|].
  pose proof (Z.log2_lxor a b ltac:(lia) ltac:(lia)) as Hl.
  assert (Z.log2 a < 8) as Hla.
  { destruct (Z.eq_dec a 0) as [->|]; [simpl; lia|].
    apply Z.log2_lt_pow2; [lia|]. change (2 ^ 8) with 256. lia. }
  assert (Z.log2 b < 8) as Hlb.
  { destruct (Z.eq_dec b 0) as [->|]; [simpl; lia|].
    apply Z.log2_lt_pow2; [lia|]. change (2 ^ 8) with 256. lia. }
  lia.
Qed.

Lemma xor_fold_range (s : bytes) : 0 <= xor_fold s < 256.
Proof.
  unfold xor_fold. induction s as [|c s IH]; simpl; [lia|].
  apply lxor_byte_range; [apply ord_byte_range|exact IH].
Qed.

Lemma compute_checksum_byte (msg : bytes) (c : Z) :
  compute_checksum msg = Ok c -> 0 <= c <= 255.
Proof.
  rewrite compute_checksum_unfold.
  destruct (run_before "*" (slice_from msg 1)) as [|b run]; [discriminate|].
  intros [= <-]. pose proof (xor_fold_range (b :: run)). lia.
Qed.

(** X4: [compute_checksum] XORs the bytes that follow the first byte up to
    the first ['*'], or up to the end when there is none, whatever the first
    byte is; when that run is empty it raises [TypeError] and otherwise it
    raises nothing. *)
Theorem compute_checksum_run (msg : bytes) :
  compute_checksum msg =
  match run_before "*" (slice_from msg 1) with
  | [] => Raise TypeError
  | run => Ok (xor_fold run)
  end.
Proof. apply compute_checksum_unfold. Qed.

(** X5: every checksum that [compute_checksum] returns is a byte value. *)
Theorem compute_checksum_range (msg : bytes) (c : Z) :
  compute_checksum msg = Ok c -> 0 <= c <= 255.
Proof. apply compute_checksum_byte. Qed.

Lemma compute_checksum_range_witness :
  compute_checksum fragment2 = Ok 85 /\ 0 <= 85 <= 255.
Proof.
  split; [reflexivity|].
  apply (compute_checksum_range fragment2 85). reflexivity.
Defined.

(** ** Errors of [NMEAMessage.__init__] *)

(** [int()] fails with one of its two [ValueError]s only. *)
Lemma py_int_Raise (base : Z) (s : bytes) (e : exn) :
  py_int base s = Raise e ->
  e = ValueError InvalidLiteral \/ e = ValueError ExceedsDigitLimit.
Proof.
  unfold py_int. destruct (strip_sign (lstrip s)) as [sign s2].
  destruct (strip_base_prefix base s2) as [|c s3]; [intros [= <-]; auto|].
  destruct (is_char c 95); [intros [= <-]; auto|].
  destruct (scan_digits base (c :: s3) false 0 0) as [[[v n] rest]|];
    [|intros [= <-]; auto].
  destruct (over_digit_limit base n); [intros [= <-]; auto|].
  destruct n as [|n]; [intros [= <-]; auto|].
  destruct (lstrip rest); [discriminate|intros [= <-]; auto].
Qed.

(** The digit loop and [int()] on a run of the digit [1], alone or followed
    by the letter [x]. *)
Lemma scan_digits_ones (base : Z) (k : nat) (t : bytes) :
  1 < base <= 16 -> t = [] \/ t = ["x"%byte] ->
  forall acc n, exists v,
    scan_digits base (repeat "1"%byte k ++ t) false acc n = Some (v, (k + n)%nat, t).
Proof.
  intros Hb Ht. induction k as [|k IH]; intros acc n.
  - exists acc. destruct Ht as [-> | ->]; [reflexivity|].
    cbn [repeat app scan_digits].
    change (is_char "x" 95) with false. change (digit_value "x") with 33.
    cbv iota. destruct (Z.ltb_spec 33 base); [lia|reflexivity].
  - cbn [repeat app scan_digits].
    change (is_char "1" 95) with false. change (digit_value "1") with 1.
    cbv iota. destruct (Z.ltb_spec 1 base); [|lia].
    destruct (IH (acc * base + 1) (S n)) as [v Hv]. exists v.
    rewrite Hv. do 3 f_equal. lia.
Qed.

Lemma py_int_ones (base : Z) (k : nat) (t : bytes) :
  1 < base <= 16 -> t = [] \/ t = ["x"%byte] ->
  exists v,
    py_int base (repeat "1"%byte (S k) ++ t) =
    if over_digit_limit base (S k) then Raise (ValueError ExceedsDigitLimit)
    else match t with
         | [] => Ok v
         | _ => Raise (ValueError InvalidLiteral)
         end.
Proof.
  intros Hb Ht.
  destruct (scan_digits_ones base (S k) t Hb Ht 0 0%nat) as [v Hv].
  exists v. unfold py_int.
  assert (E : strip_base_prefix base (repeat "1"%byte (S k) ++ t)
              = repeat "1"%byte (S k) ++ t).
  { cbn [repeat app]. destruct (repeat "1"%byte k ++ t); reflexivity. }
  change (lstrip (repeat "1"%byte (S k) ++ t)) with (repeat "1"%byte (S k) ++ t).
  change (strip_sign (repeat "1"%byte (S k) ++ t))
    with (1, repeat "1"%byte (S k) ++ t).
  cbv beta iota zeta. rewrite E, Hv.
  replace (S k + 0)%nat with (S k) by lia.
  change (repeat "1"%byte (S k) ++ t)
    with ("1"%byte :: (repeat "1"%byte k ++ t)).
  change (is_char "1" 95) with false. cbv iota.
  destruct (over_digit_limit base (S k)); [reflexivity|].
  destruct Ht as [-> | ->]; [|reflexivity].
  cbn [lstrip]. now rewrite Z.mul_1_l.
Qed.

(** The digit limit at its edge: 4300 decimal digits are read, 4301 are
    refused, also when an invalid byte follows them; base 16 has no limit. *)
Example py_int_digit_limit :
  (exists v, py_int 10 (repeat "1"%byte 4300) = Ok v) /\
  py_int 10 (repeat "1"%byte 4301) = Raise (ValueError ExceedsDigitLimit) /\
  py_int 10 (repeat "1"%byte 4301 ++ B "x") = Raise (ValueError ExceedsDigitLimit) /\
  py_int 10 (repeat "1"%byte 4300 ++ B "x") = Raise (ValueError InvalidLiteral) /\
  (exists v, py_int 16 (repeat "1"%byte 4301) = Ok v).
Proof.
  assert (L10 : over_digit_limit 10 4300 = false) by reflexivity.
  assert (M10 : over_digit_limit 10 4301 = true) by reflexivity.
  assert (M16 : over_digit_limit 16 4301 = false) by reflexivity.
  assert (H10 : 1 < 10 <= 16) by lia. assert (H16 : 1 < 16 <= 16) by lia.
  split; [|split; [|split; [|split]]].
  - destruct (py_int_ones 10 4299 [] H10 (or_introl eq_refl)) as [v Hv].
    exists v. rewrite app_nil_r, L10 in Hv. exact Hv.
  - destruct (py_int_ones 10 4300 [] H10 (or_introl eq_refl)) as [v Hv].
    rewrite app_nil_r, M10 in Hv. exact Hv.
  - destruct (py_int_ones 10 4300 (B "x") H10 (or_intror eq_refl)) as [v Hv].
    rewrite M10 in Hv. exact Hv.
  - destruct (py_int_ones 10 4299 (B "x") H10 (or_intror eq_refl)) as [v Hv].
    rewrite L10 in Hv. exact Hv.
  - destruct (py_int_ones 16 4300 [] H16 (or_introl eq_refl)) as [v Hv].
    exists v. rewrite app_nil_r, M16 in Hv. exact Hv.
Qed.

Lemma decode_ascii_Ok (s : bytes) :
  Forall (fun b => ord b < 128) s -> decode_ascii s = Ok (string_of_list_byte s).
Proof.
  intros H. unfold decode_ascii.
  replace (forallb (fun b => ord b <? 128) s) with true; [reflexivity|].
  symmetry. apply forallb_forall. intros b Hb.
  rewrite Forall_forall in H. apply Z.ltb_lt, H. now apply list_elem_of_In.
Qed.

Lemma decode_ascii_Raise (s : bytes) :
  Exists (fun b => 128 <= ord b) s -> decode_ascii s = Raise UnicodeDecodeError.
Proof.
  intros H. unfold decode_ascii.
  destruct (forallb (fun b => ord b <? 128) s) eqn:E; [|reflexivity].
  rewrite forallb_forall in E. apply Exists_exists in H as (b & Hb & Hge).
  apply list_elem_of_In, E, Z.ltb_lt in Hb. lia.
Qed.

Lemma decode_ascii_cases (s : bytes) :
  decode_ascii s = Ok (string_of_list_byte s) \/
  decode_ascii s = Raise UnicodeDecodeError.
Proof. unfold decode_ascii. destruct (forallb _ s); auto. Qed.

Section InitErrors.
Variable decode_into_bit_array : bytes -> result bitarray.
Variable get_int : bitarray -> Z -> Z -> result Z.

Local Abbreviation init := (NMEAMessage_init decode_into_bit_array get_int).

(** X6: the checksum stored on a constructed frame is a byte value, although
    [int(..., 16)] alone would also accept negative and larger literals. *)
Theorem init_checksum_is_byte (raw0 : bytes) (fr : NMEAMessage) :
  head raw0 = Some "!"%byte -> init raw0 = Ok fr ->
  exists d, checksum fr = Some d /\ 0 <= d <= 255.
Proof.
  intros Hhead H. destruct raw0 as [|b r]; [discriminate|].
  injection Hhead as ->. rewrite init_encapsulated in H.
  destruct (init_fields_Ok _ _ _ _ _ H)
    as (self & pl & bs & id & _ & Hv & _ & _ & _ & ->).
  destruct (is_valid_true _ Hv) as (d & Hd & Hc).
  exists d. split; [exact Hd|]. eapply compute_checksum_byte, Hc.
Qed.

(** X7: when the byte after ['!'] is ['*'] and the seven fields parse, the
    checksum run is empty and construction ends in the [TypeError] of
    [reduce], not in a [ValueError]. *)
Theorem init_empty_run_TypeError (raw0 : bytes) (self : NMEAMessage) :
  head raw0 = Some "!"%byte -> raw0 !! 1%nat = Some "*"%byte ->
  unpack raw0 (bytes_split "," raw0) = Ok self ->
  init raw0 = Raise TypeError.
Proof.
  intros Hhead Hstar Hu. destruct raw0 as [|b [|b' r]]; try discriminate.
  injection Hhead as ->. injection Hstar as ->.
  rewrite init_encapsulated. unfold init_fields. rewrite Hu.
  destruct (unpack_Ok _ _ _ Hu)
    as (f1 & f2 & f3 & f4 & f5 & f6 & f7 & tk & mt & c & i & d & E
        & _ & _ & _ & _ & _ & ->).
  rewrite E. reflexivity.
Qed.

(** X8: with an ASCII first field, a fragment count, fragment index or
    checksum token that [int()] does not accept makes construction raise
    one of [int()]'s own [ValueError]s, invalid literal or digit limit,
    whatever the checksum of the line: never the checksum error. *)
Theorem init_bad_number (raw0 f1 f2 f3 f4 f5 f6 f7 : bytes) :
  head raw0 = Some "!"%byte ->
  bytes_split "," raw0 = [f1; f2; f3; f4; f5; f6; f7] ->
  Forall (fun b => ord b < 128) f1 ->
  (exists e, py_int 10 f2 = Raise e) \/ (exists e, py_int 10 f3 = Raise e) \/
  (exists e, py_int 16 (slice_from f7 2) = Raise e) ->
  init raw0 = Raise (ValueError InvalidLiteral) \/
  init raw0 = Raise (ValueError ExceedsDigitLimit).
Proof.
  intros Hhead E Hascii Hbad. destruct raw0 as [|b r]; [discriminate|].
  injection Hhead as ->. rewrite init_encapsulated. unfold init_fields, unpack.
  rewrite E. cbn [length Nat.eqb negb].
  rewrite !decode_ascii_Ok
    by (unfold slice, slice_from; auto using Forall_take, Forall_drop).
  cbn [mbind result_bind].
  destruct (py_int 10 f2) as [c|e2] eqn:E2.
  2:{ apply py_int_Raise in E2 as [-> | ->]; [left|right]; reflexivity. }
  cbn [mbind result_bind].
  destruct (py_int 10 f3) as [i|e3] eqn:E3.
  2:{ apply py_int_Raise in E3 as [-> | ->]; [left|right]; reflexivity. }
  cbn [mbind result_bind].
  destruct (py_int 16 (slice_from f7 2)) as [d|e7] eqn:E7.
  2:{ apply py_int_Raise in E7 as [-> | ->]; [left|right]; reflexivity. }
  destruct Hbad as [[e He]|[[e He]|[e He]]]; discriminate.
Qed.

(** X9: a non-ASCII byte anywhere in the first field of a seven-field
    sentence makes construction raise [UnicodeDecodeError], before any
    number or checksum is looked at. *)
Theorem init_non_ascii_head (raw0 f1 : bytes) :
  head raw0 = Some "!"%byte ->
  length (bytes_split "," raw0) = 7%nat ->
  bytes_split "," raw0 !! 0%nat = Some f1 ->
  Exists (fun b => 128 <= ord b) f1 ->
  init raw0 = Raise UnicodeDecodeError.
Proof.
  intros Hhead Hlen H1 Hex. destruct raw0 as [|b r]; [discriminate|].
  injection Hhead as ->. rewrite init_encapsulated. unfold init_fields.
  rewrite Hlen. cbn [Nat.eqb negb].
  destruct (bytes_split_head "," "!" r) as (t & fs & E); [discriminate|].
  rewrite E in *. injection H1 as <-.
  destruct fs as [|f2 [|f3 [|f4 [|f5 [|f6 [|f7 [|]]]]]]]; try discriminate.
  unfold unpack, slice, slice_from. simpl drop. rewrite drop_0.
  apply Exists_cons in Hex as [Hex|Hex]; [vm_compute in Hex; now destruct Hex|].
  rewrite <- (take_drop 2 t) in Hex. apply Exists_app in Hex as [Hex|Hex].
  - change (3 - 1)%nat with 2%nat. now rewrite (decode_ascii_Raise _ Hex).
  - change (3 - 1)%nat with 2%nat.
    destruct (decode_ascii_cases (take 2 t)) as [->| ->]; [|reflexivity].
    cbn [mbind result_bind]. now rewrite (decode_ascii_Raise _ Hex).
Qed.
End InitErrors.

(** ** Trailing whitespace *)

Lemma space_class (c : byte) :
  py_isspace c = true ->
  c <> ","%byte /\ c <> "*"%byte /\ is_char c 95 = false /\ digit_value c = 37.
Proof.
  unfold py_isspace, is_char, digit_value. intros Hsp.
  assert (9 <= ord c <= 13 \/ ord c = 32) as R.
  { revert Hsp. generalize (ord c). intros o. leb_cases; intros Hsp; try lia.
    all: apply Z.eqb_eq in Hsp; lia. }
  split; [intros ->; change (ord ",") with 44 in R; lia|].
  split; [intros ->; change (ord "*") with 42 in R; lia|].
  revert R. generalize (ord c). intros o R.
  split; [apply Z.eqb_neq; lia|]. leb_cases; lia.
Qed.

Lemma lstrip_all_space (s : bytes) :
  Forall (fun c => py_isspace c = true) s -> lstrip s = [].
Proof. induction 1 as [|c s Hc _ IH]; simpl; [reflexivity|now rewrite Hc]. Qed.

Lemma lstrip_app (s ws : bytes) :
  lstrip s <> [] -> lstrip (s ++ ws) = lstrip s ++ ws.
Proof.
  induction s as [|c s IH]; simpl; [contradiction|].
  destruct (py_isspace c); [exact IH|reflexivity].
Qed.

Lemma strip_sign_app (s ws : bytes) :
  s <> [] -> strip_sign (s ++ ws) = ((strip_sign s).1, (strip_sign s).2 ++ ws).
Proof.
  destruct s as [|c r]; [contradiction|]. intros _. simpl.
  destruct (is_char c 43); [reflexivity|]. destruct (is_char c 45); reflexivity.
Qed.

Lemma strip_base_prefix_app (base : Z) (s ws : bytes) :
  s <> [] -> Forall (fun c => py_isspace c = true) ws ->
  strip_base_prefix base (s ++ ws) = strip_base_prefix base s ++ ws.
Proof.
  intros Hne Hws. destruct s as [|c0 [|c1 r]]; [contradiction| |].
  - destruct ws as [|w ws']; [reflexivity|]. simpl.
    inversion Hws as [|? ? Hw _]; subst.
    assert (is_char w 120 = false /\ is_char w 88 = false /\
            is_char w 111 = false /\ is_char w 79 = false /\
            is_char w 98 = false /\ is_char w 66 = false) as (-> & -> & -> & -> & -> & ->).
    { unfold py_isspace in Hw. unfold is_char. revert Hw. generalize (ord w).
      intros o Hw.
      assert (9 <= o <= 13 \/ o = 32) as R.
      { revert Hw. leb_cases; intros Hw; try lia. all: apply Z.eqb_eq in Hw; lia. }
      repeat split; apply Z.eqb_neq; lia. }
    now rewrite !andb_false_r.
  - simpl.
    match goal with |- context [if ?t then _ else _] => destruct t end;
      [|reflexivity].
    destruct r as [|u r']; simpl.
    + destruct ws as [|w ws']; [reflexivity|].
      inversion Hws as [|? ? Hw _]; subst.
      destruct (space_class w Hw) as (_ & _ & -> & _). reflexivity.
    + destruct (is_char u 95); reflexivity.
Qed.

Lemma scan_digits_app (base : Z) (s ws : bytes) :
  base <= 37 -> Forall (fun c => py_isspace c = true) ws ->
  forall prev_us acc n v n' rest,
    scan_digits base s prev_us acc n = Some (v, n', rest) ->
    scan_digits base (s ++ ws) prev_us acc n = Some (v, n', rest ++ ws).
Proof.
  intros Hbase Hws. induction s as [|c s IH]; intros prev_us acc n v n' rest; simpl.
  - destruct prev_us; [discriminate|]. intros [= <- <- <-].
    destruct ws as [|w ws']; [reflexivity|]. simpl.
    inversion Hws as [|? ? Hw _]; subst.
    destruct (space_class w Hw) as (_ & _ & -> & ->).
    destruct (Z.ltb_spec 37 base); [lia|reflexivity].
  - destruct (is_char c 95).
    + destruct prev_us; [discriminate|]. apply IH.
    + destruct (digit_value c <? base); [apply IH|].
      destruct prev_us; [discriminate|]. intros [= <- <- <-]. reflexivity.
Qed.

(** [int()] ignores whitespace after the literal. *)
Lemma py_int_trailing_space (base : Z) (s ws : bytes) (v : Z) :
  base <= 37 -> Forall (fun c => py_isspace c = true) ws ->
  py_int base s = Ok v -> py_int base (s ++ ws) = Ok v.
Proof.
  intros Hbase Hws. unfold py_int.
  destruct (lstrip s) as [|c1 s1] eqn:E1; [discriminate|].
  rewrite lstrip_app by (rewrite E1; discriminate). rewrite E1.
  rewrite strip_sign_app by discriminate.
  destruct (strip_sign (c1 :: s1)) as [sign s2]. cbn [fst snd].
  destruct s2 as [|c2 s2']; [discriminate|].
  rewrite strip_base_prefix_app by (assumption || discriminate).
  destruct (strip_base_prefix base (c2 :: s2')) as [|c s3]; [discriminate|].
  cbn [app]. destruct (is_char c 95); [discriminate|].
  destruct (scan_digits base (c :: s3) false 0 0) as [[[v' n] rest]|] eqn:Es;
    [|discriminate].
  change (c :: s3 ++ ws) with ((c :: s3) ++ ws).
  rewrite (scan_digits_app _ _ _ Hbase Hws _ _ _ _ _ _ Es).
  destruct (over_digit_limit base n); [discriminate|].
  destruct n as [|n]; [discriminate|].
  destruct (lstrip rest) eqn:El; [|discriminate]. intros H.
  destruct (lstrip_decomp rest) as (ws' & Erest & Fws'). rewrite El, app_nil_r in Erest.
  subst ws'. rewrite lstrip_all_space by (apply Forall_app; auto). exact H.
Qed.

Lemma bytes_split_app_last (sep : byte) (s ws : bytes) :
  sep ∉ ws ->
  exists fs l, bytes_split sep s = fs ++ [l] /\
               bytes_split sep (s ++ ws) = fs ++ [l ++ ws].
Proof.
  intros Hws. induction s as [|c s (fs & l & E1 & E2)]; simpl.
  - exists [], []. split; [reflexivity|]. now apply bytes_split_nosep.
  - destruct (Byte.eqb c sep).
    + exists ([] :: fs), l. rewrite E1, E2. split; reflexivity.
    + rewrite E1, E2. destruct fs as [|f fs]; simpl.
      * exists [], (c :: l). split; reflexivity.
      * exists ((c :: f) :: fs), l. split; reflexivity.
Qed.

Lemma run_before_app (sep : byte) (s ws : bytes) :
  sep ∈ s -> run_before sep (s ++ ws) = run_before sep s.
Proof.
  induction s as [|c s IH]; intros Hin; [now apply not_elem_of_nil in Hin|].
  simpl. destruct (Byte.eqb c sep) eqn:E; [reflexivity|].
  apply Byte.eqb_false in E. apply elem_of_cons in Hin as [Hin|Hin]; [congruence|].
  now rewrite IH.
Qed.

Section TrailingWhitespace.
Variable decode_into_bit_array : bytes -> result bitarray.
Variable get_int : bitarray -> Z -> Z -> result Z.

Local Abbreviation init := (NMEAMessage_init decode_into_bit_array get_int).

(** X10: whitespace after an accepted sentence that contains a ['*'] (a
    line ending left on the line, say) changes nothing but [raw]: the longer
    line is accepted with the same attributes. *)
Theorem init_trailing_whitespace (raw0 ws : bytes) (fr : NMEAMessage) :
  head raw0 = Some "!"%byte -> init raw0 = Ok fr ->
  "*"%byte ∈ raw0 ->
  Forall (fun c => py_isspace c = true) ws ->
  init (raw0 ++ ws) = Ok (set_raw (raw0 ++ ws) fr).
Proof.
  intros Hhead H Hstar Hws. destruct raw0 as [|b r]; [discriminate|].
  injection Hhead as ->. rewrite init_encapsulated in H.
  change (("!"%byte :: r) ++ ws) with ("!"%byte :: (r ++ ws)).
  rewrite init_encapsulated.
  change ("!"%byte :: (r ++ ws)) with (("!"%byte :: r) ++ ws).
  destruct (init_fields_Ok _ _ _ _ _ H)
    as (self & pl & bs & id & Hu & Hv & Hd & Hbits & Hid & ->).
  destruct (unpack_Ok _ _ _ Hu)
    as (f1 & f2 & f3 & f4 & f5 & f6 & f7 & tk & mt & c & i & d & E
        & Htk & Hmt & Hc & Hi & Hck & ->).
  destruct (is_valid_true _ Hv) as (d' & Ed & Hcc). simpl in Ed, Hcc, Hd.
  injection Ed as <-. injection Hd as <-.
  assert (","%byte ∉ ws) as Hcomma.
  { intros Hin. rewrite Forall_forall in Hws.
    destruct (space_class _ (Hws _ Hin)) as (Hne & _). now apply Hne. }
  destruct (bytes_split_app_last "," ("!"%byte :: r) ws Hcomma)
    as (fs & l & E1 & E2).
  rewrite E in E1.
  change [f1; f2; f3; f4; f5; f6; f7] with ([f1; f2; f3; f4; f5; f6] ++ [f7]) in E1.
  apply app_inj_tail in E1 as [<- <-].
  unfold init_fields, unpack. rewrite E2. cbn [app length Nat.eqb negb].
  rewrite Htk, Hmt, Hc, Hi. cbn [mbind result_bind mret result_ret].
  assert (2 <= length f7)%nat as Hlen.
  { destruct f7 as [|a [|a' f7']]; simpl; try lia; discriminate Hck. }
  unfold slice_from in *. rewrite drop_app_le by exact Hlen.
  rewrite (py_int_trailing_space 16 _ ws d) by (assumption || lia).
  cbn [mbind result_bind mret result_ret].
  unfold is_valid. cbn [raw checksum].
  match goal with
  | |- context [compute_checksum ?x] => assert (compute_checksum x = Ok d) as ->
  end.
  { rewrite compute_checksum_unfold in Hcc |- *. unfold slice_from in *.
    simpl drop in *. rewrite drop_0 in *.
    rewrite run_before_app; [exact Hcc|].
    apply elem_of_cons in Hstar as [Hstar|Hstar]; [discriminate|exact Hstar]. }
  cbn [mbind result_bind mret result_ret].
  rewrite bool_decide_eq_true_2 by reflexivity. cbn [negb data].
  rewrite Hbits. cbn [mbind result_bind]. rewrite Hid. reflexivity.
Qed.
End TrailingWhitespace.

(** ** [is_single] and [is_multi] *)

Section Fragments.
Variable decode_into_bit_array : bytes -> result bitarray.
Variable get_int : bitarray -> Z -> Z -> result Z.

Local Abbreviation init := (NMEAMessage_init decode_into_bit_array get_int).

(** X11: a constructed message reports [is_single] exactly when it was
    parsed from a ['!'] sentence whose sequence-id field is empty and whose
    fragment count and index are both 1; an ignored message therefore always
    reports [is_multi]. *)
Theorem is_single_iff (raw0 : bytes) (fr : NMEAMessage) :
  init raw0 = Ok fr ->
  (is_single fr = true <->
   head raw0 = Some "!"%byte /\ bytes_split "," raw0 !! 3%nat = Some [] /\
   count fr = Some 1 /\ index fr = Some 1) /\
  (head raw0 <> Some "!"%byte -> is_multi fr = true).
Proof.
  intros H.
  destruct (init_by_first_byte decode_into_bit_array get_int raw0)
    as [[_ E]|[[_ E]|[[Hhead E]|[Hhead E]]]]; rewrite E in H; try discriminate.
  - destruct (init_fields_Ok _ _ _ _ _ H)
      as (self & pl & bs & id & Hu & _ & _ & _ & _ & ->).
    destruct (unpack_Ok _ _ _ Hu)
      as (f1 & f2 & f3 & f4 & f5 & f6 & f7 & tk & mt & c & i & d & Es
          & _ & _ & _ & _ & _ & ->).
    rewrite Es. split; [|intros Hne; contradiction].
    unfold is_single. simpl. rewrite !andb_true_iff, !bool_decide_eq_true.
    destruct f4 as [|a f4']; simpl; split.
    + intros (_ & Hic & Hc). repeat split; congruence.
    + intros (_ & _ & Hc & Hi). repeat split; congruence.
    + intros (Hf & _). discriminate.
    + intros (_ & Hf & _). discriminate.
  - injection H as <-. split; [|reflexivity]. split; [discriminate|].
    intros (Hh & _). contradiction.
Qed.
End Fragments.

(** ** Outcomes of [assemble_from_iterable] *)

Lemma assemble_loop_cases (h : heap) (messages : list loc) :
  forall acc_raw acc_data acc_bits,
    (Forall (fun l => has_payload (h l)) messages /\
     assemble_loop h messages acc_raw acc_data acc_bits =
     Ok (acc_raw ++ concat ((fun l => raw (h l)) <$> messages),
         acc_data ++ concat ((fun l => payload (h l)) <$> messages),
         acc_bits ++ concat ((fun l => bits (h l)) <$> messages))) \/
    (Exists (fun l => ~ has_payload (h l)) messages /\
     assemble_loop h messages acc_raw acc_data acc_bits = Raise TypeError).
Proof.
  induction messages as [|l ls IH]; intros acc_raw acc_data acc_bits; simpl.
  - left. split; [constructor|]. now rewrite !app_nil_r.
  - unfold has_payload at 2, payload at 1, bits at 1.
    destruct (data (h l)) as [d|] eqn:Ed; simpl.
    2:{ right. split; [|reflexivity]. left. unfold has_payload. rewrite Ed.
        intros [[? ?] _]. discriminate. }
    destruct (bit_array (h l)) as [b|] eqn:Eb; simpl.
    2:{ right. split; [|reflexivity]. left. unfold has_payload. rewrite Eb.
        intros [_ [? ?]]. discriminate. }
    destruct (IH (acc_raw ++ raw (h l)) (acc_data ++ d) (acc_bits ++ b))
      as [[Hall ->]|[Hex ->]].
    + left. split.
      * constructor; [|exact Hall]. unfold has_payload. rewrite Ed, Eb. eauto.
      * now rewrite <- !app_assoc.
    + right. split; [now right|reflexivity].
Qed.

(** X12: [assemble_from_iterable] succeeds exactly on a non-empty sequence
    of messages that all hold a payload and bits, and then returns the first
    element; a message without them (an ignored one) makes it raise
    [TypeError], and otherwise an empty sequence makes it raise
    [IndexError]. *)
Theorem assemble_from_iterable_outcome (h : heap) (messages : list loc) :
  match assemble_from_iterable h messages with
  | Ok (h', r) =>
      head messages = Some r /\ Forall (fun l => has_payload (h l)) messages
  | Raise e =>
      (e = TypeError /\ Exists (fun l => ~ has_payload (h l)) messages) \/
      (e = IndexError /\ messages = [] )
  end.
Proof.
  unfold assemble_from_iterable.
  destruct (assemble_loop_cases h messages [] [] []) as [[Hall ->]|[Hex ->]].
  - destruct messages as [|l ls]; simpl; [right; split; reflexivity|].
    split; [reflexivity|exact Hall].
  - simpl. left. split; [reflexivity|exact Hex].
Qed.

Lemma set_fields_same (m : NMEAMessage) (d : bytes) (b : bitarray) :
  data m = Some d -> bit_array m = Some b ->
  set_bit_array (Some b) (set_data (Some d) (set_raw (raw m) m)) = m.
Proof. destruct m. simpl. now intros -> ->. Qed.

(** X13: assembling a sequence of one message that holds a payload changes
    nothing: the call returns that message and every object is as before. *)
Theorem assemble_singleton (h : heap) (l : loc) :
  has_payload (h l) ->
  exists h', assemble_from_iterable h [l] = Ok (h', l) /\ forall l', h' l' = h l'.
Proof.
  intros [[d Hd] [b Hb]]. unfold assemble_from_iterable. simpl.
  rewrite Hd, Hb. simpl. eexists. split; [reflexivity|].
  intros l'. rewrite !store_eq.
  destruct (Nat.eq_dec l' l) as [->|Hne].
  - rewrite ?store_eq, ?app_nil_r. now apply set_fields_same.
  - rewrite !store_ne by assumption. reflexivity.
Qed.

Lemma compute_checksum_app (s t : bytes) :
  "*"%byte ∈ slice_from s 1 -> compute_checksum (s ++ t) = compute_checksum s.
Proof.
  intros Hin. rewrite !compute_checksum_unfold. unfold slice_from in *.
  destruct s as [|c s]; [now apply not_elem_of_nil in Hin|].
  simpl drop in *. rewrite drop_0 in *. now rewrite run_before_app.
Qed.

(** X14: when the first fragment has a ['*'] after its first byte, the
    assembled message gives the same [is_valid] as the first fragment did
    before the call: the appended fragments lie behind the checksum run. *)
Theorem assemble_keeps_is_valid (h h' : heap) (messages : list loc) (r : loc) :
  assemble_from_iterable h messages = Ok (h', r) ->
  "*"%byte ∈ slice_from (raw (h r)) 1 ->
  is_valid (h' r) = is_valid (h r).
Proof.
  intros H Hstar.
  destruct (assemble_from_iterable_Ok _ _ _ _ H)
    as (acc_raw & acc_data & acc_bits & Hloop & Hhead & _ & ->).
  destruct messages as [|l ls]; [discriminate|]. injection Hhead as ->.
  destruct (assemble_loop_cases h (r :: ls) [] [] []) as [[_ E]|[_ E]];
    rewrite E in Hloop; [|discriminate].
  injection Hloop as <- _ _.
  unfold is_valid. cbn [raw checksum set_bit_array set_data set_raw fmap list_fmap concat app].
  now rewrite compute_checksum_app.
Qed.

(** X15: the call is not idempotent.  A second call on the same sequence,
    whose first message does not occur again further on, appends the other
    fragments once more to the already assembled first message. *)
Theorem assemble_twice (h h1 : heap) (first r : loc) (rest : list loc) :
  assemble_from_iterable h (first :: rest) = Ok (h1, r) ->
  first ∉ rest ->
  exists h2,
    assemble_from_iterable h1 (first :: rest) = Ok (h2, first) /\
    raw (h2 first) =
      raw (h first) ++ concat ((fun l => raw (h l)) <$> rest)
                    ++ concat ((fun l => raw (h l)) <$> rest) /\
    data (h2 first) =
      Some (payload (h first) ++ concat ((fun l => payload (h l)) <$> rest)
                              ++ concat ((fun l => payload (h l)) <$> rest)) /\
    bit_array (h2 first) =
      Some (bits (h first) ++ concat ((fun l => bits (h l)) <$> rest)
                           ++ concat ((fun l => bits (h l)) <$> rest)).
Proof.
  intros H Hfresh.
  destruct (assemble_from_iterable_Ok _ _ _ _ H)
    as (acc_raw & acc_data & acc_bits & Hloop & Hhead & Hother & Hr).
  injection Hhead as <-.
  destruct (assemble_loop_cases h (first :: rest) [] [] []) as [[Hall E]|[_ E]];
    rewrite E in Hloop; [|discriminate].
  injection Hloop as <- <- <-. simpl in Hr.
  assert (forall l, l ∈ rest -> h1 l = h l) as Hrest.
  { intros l Hl. apply Hother. intros ->. contradiction. }
  assert (forall (A : Type) (f : NMEAMessage -> list A),
            concat ((fun l => f (h1 l)) <$> rest) = concat ((fun l => f (h l)) <$> rest))
    as Hmap.
  { intros A f. f_equal. apply list_fmap_ext. intros i l Hl.
    now rewrite Hrest by (eapply list_elem_of_lookup_2; eauto). }
  assert (Forall (fun l => is_Some (data (h1 l)) /\ is_Some (bit_array (h1 l)))
            (first :: rest)) as Hall1.
  { constructor.
    - rewrite Hr. simpl. eauto.
    - inversion Hall as [|? ? _ Hall']; subst.
      rewrite Forall_forall in Hall' |- *. intros l Hl.
      rewrite (Hrest l Hl). apply Hall', Hl. }
  unfold assemble_from_iterable. rewrite (assemble_loop_Ok _ _ Hall1).
  rewrite !fmap_cons, !concat_cons, (Hmap _ raw), (Hmap _ payload), (Hmap _ bits).
  cbn [mbind result_bind mret result_ret getitem lookup list_lookup app].
  eexists. split; [reflexivity|]. rewrite !store_eq.
  rewrite Hr. unfold payload, bits.
  cbn [raw data bit_array set_raw set_data set_bit_array default]. unfold id.
  rewrite <- !app_assoc. repeat split; reflexivity.
Qed.

(** ** [__dict__] and [from_string] *)

Lemma utf8_decode_ascii (s : bytes) :
  Forall (fun b => ord b < 128) s -> utf8_decode s = Ok (ord <$> s).
Proof.
  induction 1 as [|b s Hb _ IH]; [reflexivity|].
  cbn [utf8_decode]. apply Z.ltb_lt in Hb. rewrite Hb, IH. reflexivity.
Qed.

Lemma bytes_value_ascii (x : option bytes) :
  (forall b, x = Some b -> Forall (fun c => ord c < 128) b) ->
  bytes_value x = Ok (ascii_value x).
Proof.
  destruct x as [b|]; [|reflexivity]. intros H. simpl.
  now rewrite utf8_decode_ascii by auto.
Qed.

Lemma bytes_split_Forall (P : byte -> Prop) (sep : byte) (s : bytes) :
  Forall P s -> Forall (Forall P) (bytes_split sep s).
Proof.
  induction 1 as [|c s Hc _ IH]; simpl; [repeat constructor|].
  destruct (Byte.eqb c sep); [constructor; [constructor|exact IH]|].
  destruct (bytes_split sep s) as [|f fs]; [repeat constructor; exact Hc|].
  inversion IH; subst. constructor; [constructor|]; assumption.
Qed.

Lemma ord_byte_of (z : Z) : 0 <= z < 256 -> ord (byte_of z) = z.
Proof.
  intros Hz. unfold byte_of, ord.
  destruct (Byte.of_N (Z.to_N z)) as [b|] eqn:E.
  - apply Byte.to_of_N in E. simpl. rewrite E. lia.
  - apply Byte.of_N_None_iff in E. lia.
Qed.

Lemma utf8_encode_ascii (s : pystr) :
  Forall (fun cp => 0 <= cp < 128) s -> utf8_encode s = Ok (byte_of <$> s).
Proof.
  induction 1 as [|cp s Hcp _ IH]; [reflexivity|].
  cbn [utf8_encode]. unfold utf8_encode_char.
  destruct (Z.ltb_spec cp 128); [|lia]. rewrite IH. reflexivity.
Qed.

Section Exporting.
Variable decode_into_bit_array : bytes -> result bitarray.
Variable get_int : bitarray -> Z -> Z -> result Z.

Local Abbreviation init := (NMEAMessage_init decode_into_bit_array get_int).

Lemma init_Ok_raw (raw0 : bytes) (fr : NMEAMessage) :
  init raw0 = Ok fr -> raw fr = raw0.
Proof.
  intros H.
  destruct (init_by_first_byte decode_into_bit_array get_int raw0)
    as [[_ E]|[[_ E]|[[Hhead E]|[Hhead E]]]]; rewrite E in H; try discriminate.
  - destruct (init_fields_Ok _ _ _ _ _ H)
      as (self & pl & bs & id & Hu & _ & _ & _ & _ & ->).
    destruct (unpack_Ok _ _ _ Hu)
      as (f1 & f2 & f3 & f4 & f5 & f6 & f7 & tk & mt & c & i & d & _
          & _ & _ & _ & _ & _ & ->).
    reflexivity.
  - now injection H as <-.
Qed.

(** The [bytes] slots of a message built from an ASCII line are ASCII. *)
Lemma init_ascii_slots (raw0 : bytes) (fr : NMEAMessage) :
  Forall (fun b => ord b < 128) raw0 -> init raw0 = Ok fr ->
  forall x, x = seq_id fr \/ x = channel fr \/ x = data fr ->
  forall b, x = Some b -> Forall (fun c => ord c < 128) b.
Proof.
  intros Hascii H.
  destruct (init_by_first_byte decode_into_bit_array get_int raw0)
    as [[_ E]|[[_ E]|[[Hhead E]|[Hhead E]]]]; rewrite E in H; try discriminate.
  - destruct (init_fields_Ok _ _ _ _ _ H)
      as (self & pl & bs & id & Hu & _ & _ & _ & _ & ->).
    destruct (unpack_Ok _ _ _ Hu)
      as (f1 & f2 & f3 & f4 & f5 & f6 & f7 & tk & mt & c & i & d & Es
          & _ & _ & _ & _ & _ & ->).
    pose proof (bytes_split_Forall _ "," raw0 Hascii) as Hf. rewrite Es in Hf.
    rewrite !Forall_cons in Hf. destruct Hf as (_ & _ & _ & H4 & H5 & H6 & _).
    simpl. intros x [->|[->| ->]] b [= <-]; assumption.
  - injection H as <-. simpl. intros x [->|[->| ->]] b; discriminate.
Qed.

Lemma dict_ascii (raw0 : bytes) (fr : NMEAMessage) :
  Forall (fun b => ord b < 128) raw0 -> init raw0 = Ok fr ->
  NMEAMessage_dict fr =
  Ok [("ais_id", int_value (ais_id fr)); ("raw", VStr (ord <$> raw0));
      ("talker", str_value (talker fr)); ("msg_type", str_value (msg_type fr));
      ("count", int_value (count fr)); ("index", int_value (index fr));
      ("seq_id", ascii_value (seq_id fr)); ("channel", ascii_value (channel fr));
      ("data", ascii_value (data fr)); ("checksum", int_value (checksum fr));
      ("bit_array", bits_value (bit_array fr))]%string.
Proof.
  intros Hascii H. pose proof (init_ascii_slots _ _ Hascii H) as Hs.
  unfold NMEAMessage_dict. rewrite (init_Ok_raw _ _ H).
  rewrite (bytes_value_ascii (Some raw0)) by (now intros b [= <-]).
  rewrite !bytes_value_ascii by (apply Hs; auto). reflexivity.
Qed.

(** X16: for a message constructed from a line of ASCII bytes the export
    never raises; it lists the eleven slots in the order of [__slots__],
    each [bytes] slot as its text, the bits as a string of 0 and 1, and
    numbers, strings and unset slots unchanged. *)
Theorem dict_of_ascii_line (raw0 : bytes) (fr : NMEAMessage) :
  Forall (fun b => ord b < 128) raw0 -> init raw0 = Ok fr ->
  NMEAMessage_dict fr =
  Ok [("ais_id", int_value (ais_id fr)); ("raw", VStr (ord <$> raw0));
      ("talker", str_value (talker fr)); ("msg_type", str_value (msg_type fr));
      ("count", int_value (count fr)); ("index", int_value (index fr));
      ("seq_id", ascii_value (seq_id fr)); ("channel", ascii_value (channel fr));
      ("data", ascii_value (data fr)); ("checksum", int_value (checksum fr));
      ("bit_array", bits_value (bit_array fr))]%string.
Proof. apply dict_ascii. Qed.

(** X17: the export decodes [raw] as UTF-8 before anything else can fail,
    so for a message whose line is not valid UTF-8 (the constructor takes
    any bytes) it raises the decoding error. *)
Theorem dict_invalid_utf8 (raw0 : bytes) (fr : NMEAMessage) (e : exn) :
  init raw0 = Ok fr -> utf8_decode raw0 = Raise e ->
  NMEAMessage_dict fr = Raise e.
Proof.
  intros H Hdec. unfold NMEAMessage_dict. rewrite (init_Ok_raw _ _ H).
  simpl. now rewrite Hdec.
Qed.

(** X18: for a text of ASCII characters, [from_string] constructs what the
    constructor makes of the bytes with the same codes, and the exported
    [raw] of the message is that text again. *)
Theorem from_string_ascii (s : pystr) :
  Forall (fun cp => 0 <= cp < 128) s ->
  from_string decode_into_bit_array get_int s = init (byte_of <$> s) /\
  forall m, from_string decode_into_bit_array get_int s = Ok m ->
    exists d, NMEAMessage_dict m = Ok d /\ d !! 1%nat = Some ("raw"%string, VStr s).
Proof.
  intros Hs. unfold from_string. rewrite (utf8_encode_ascii _ Hs).
  split; [reflexivity|]. intros m H. cbn [mbind result_bind] in H.
  assert (ord <$> (byte_of <$> s) = s) as Eord.
  { clear H. induction Hs as [|cp s Hcp _ IH]; [reflexivity|].
    simpl. rewrite ord_byte_of by lia. now f_equal. }
  assert (Forall (fun b => ord b < 128) (byte_of <$> s)) as Hascii.
  { clear H Eord. induction Hs as [|cp s Hcp _ IH]; constructor; [|exact IH].
    rewrite ord_byte_of by lia. lia. }
  eexists. split; [apply (dict_ascii _ _ Hascii H)|].
  simpl. now rewrite Eord.
Qed.
End Exporting.

(** ** [is_valid] on constructed messages *)

Section Validity.
Variable decode_into_bit_array : bytes -> result bitarray.
Variable get_int : bitarray -> Z -> Z -> result Z.

Local Abbreviation init := (NMEAMessage_init decode_into_bit_array get_int).

(** X19: among the messages the constructor returns, [is_valid] is true
    exactly for those parsed from a ['!'] sentence; an ignored message never
    validates, because its checksum is unset. *)
Theorem is_valid_iff (raw0 : bytes) (fr : NMEAMessage) :
  init raw0 = Ok fr ->
  (is_valid fr = Ok true <-> head raw0 = Some "!"%byte).
Proof.
  intros H.
  destruct (init_by_first_byte decode_into_bit_array get_int raw0)
    as [[_ E]|[[_ E]|[[Hhead E]|[Hhead E]]]]; rewrite E in H; try discriminate.
  - destruct (init_fields_Ok _ _ _ _ _ H)
      as (self & pl & bs & id & _ & Hv & _ & _ & _ & ->).
    split; [intros _; exact Hhead|intros _; exact Hv].
  - injection H as <-. split; [|intros Hh; contradiction].
    unfold is_valid. cbn [raw checksum blank].
    destruct (compute_checksum raw0) as [a|e]; [|discriminate].
    unfold mbind, result_bind, mret, result_ret. intros [= Hb].
Qed.
End Validity.

(** ** What the checksum does not detect *)

Lemma lxor_fold_perm (l l' : list Z) :
  l ≡ₚ l' -> fold_right Z.lxor 0 l = fold_right Z.lxor 0 l'.
Proof.
  induction 1 as [|x l l' _ IH|x y l|l l' l'' _ IH1 _ IH2]; simpl.
  - reflexivity.
  - now rewrite IH.
  - rewrite <- !Z.lxor_assoc. f_equal. apply Z.lxor_comm.
  - now rewrite IH1.
Qed.

Lemma xor_fold_perm (p p' : bytes) : p ≡ₚ p' -> xor_fold p = xor_fold p'.
Proof. intros H. apply lxor_fold_perm. now apply fmap_Permutation. Qed.

Lemma run_before_app_notin (sep : byte) (s t : bytes) :
  sep ∉ s -> run_before sep (s ++ t) = s ++ run_before sep t.
Proof.
  induction s as [|c s IH]; intros Hnotin; simpl; [reflexivity|].
  rewrite eqb_neq by (intros ->; apply Hnotin; left).
  rewrite IH; [reflexivity|]. intros Hin. apply Hnotin. now right.
Qed.

Lemma elem_of_dec_byte (c : byte) (s : bytes) : c ∈ s \/ c ∉ s.
Proof.
  induction s as [|x s [IH|IH]].
  - right. apply not_elem_of_nil.
  - left. now right.
  - destruct (Byte.byte_eq_dec c x) as [->|Hne]; [left; left|].
    right. intros Hin. apply elem_of_cons in Hin as [Hin|Hin]; contradiction.
Qed.

(** The checksum of a line does not change when the bytes of a segment
    without ['*'] are reordered. *)
Lemma compute_checksum_perm (s0 : byte) (pre p p' post : bytes) :
  pre <> [] -> p ≡ₚ p' -> "*"%byte ∉ p ->
  compute_checksum (s0 :: pre ++ p' ++ post) = compute_checksum (s0 :: pre ++ p ++ post).
Proof.
  intros Hne Hperm Hp.
  assert ("*"%byte ∉ p') as Hp' by (now rewrite <- Hperm).
  rewrite !compute_checksum_unfold. unfold slice_from. simpl drop. rewrite !drop_0.
  destruct (elem_of_dec_byte "*" pre) as [Hin|Hnotin].
  - now rewrite !run_before_app.
  - rewrite !(run_before_app_notin _ pre) by assumption.
    rewrite !(run_before_app_notin _ p), !(run_before_app_notin _ p') by assumption.
    destruct pre as [|c pre]; [contradiction|]. cbn [app].
    f_equal. change (c :: pre ++ ?x) with ((c :: pre) ++ x).
    rewrite !xor_fold_app. now rewrite (xor_fold_perm _ _ Hperm).
Qed.

Section Undetected.
Variable decode_into_bit_array : bytes -> result bitarray.
Variable get_int : bitarray -> Z -> Z -> result Z.

Local Abbreviation init := (NMEAMessage_init decode_into_bit_array get_int).

(** X20: the checksum does not detect a reordering of the payload.  When
    the payload of an accepted sentence holds no ['*'], the sentence with
    the payload bytes in any other order passes the checksum test, and is
    accepted with the same header attributes as soon as the reordered
    payload unarmours with a readable message id. *)
Theorem payload_permutation_accepted (raw0 : bytes) (fr : NMEAMessage)
    (f1 f2 f3 f4 f5 p p' f7 : bytes) (bs' : bitarray) (id' : Z) :
  head raw0 = Some "!"%byte ->
  init raw0 = Ok fr ->
  bytes_split "," raw0 = [f1; f2; f3; f4; f5; p; f7] ->
  p ≡ₚ p' -> "*"%byte ∉ p ->
  decode_into_bit_array p' = Ok bs' -> get_int bs' 0 6 = Ok id' ->
  init (bytes_join "," [f1; f2; f3; f4; f5; p'; f7]) =
  Ok (mkNMEA (Some id') (bytes_join "," [f1; f2; f3; f4; f5; p'; f7])
        (talker fr) (msg_type fr) (count fr) (index fr) (seq_id fr)
        (channel fr) (Some p') (checksum fr) (Some bs')).
Proof.
  intros Hhead Hinit Esplit Hperm Hstar Hbits Hid.
  pose proof (bytes_join_split "," raw0) as Eraw. rewrite Esplit in Eraw.
  pose proof (bytes_split_no_sep "," raw0) as Hsep. rewrite Esplit in Hsep.
  rewrite !Forall_cons in Hsep.
  destruct Hsep as (S1 & S2 & S3 & S4 & S5 & S6 & S7 & _).
  destruct f1 as [|c t].
  { rewrite <- Eraw in Hhead. discriminate Hhead. }
  assert (c = "!"%byte) as -> by (rewrite <- Eraw in Hhead; now injection Hhead).
  set (pre := t ++ ","%byte :: f2 ++ ","%byte :: f3 ++ ","%byte :: f4
                ++ ","%byte :: f5 ++ [","%byte]).
  set (post := ","%byte :: f7).
  assert (forall x, bytes_join "," ["!"%byte :: t; f2; f3; f4; f5; x; f7]
                    = "!"%byte :: pre ++ x ++ post) as Ejoin.
  { intros x. subst pre post. cbn [bytes_join].
    repeat (rewrite <- app_assoc; cbn [app]). reflexivity. }
  assert (pre <> []) as Hpre by (subst pre; destruct t; discriminate).
  (* the original sentence *)
  rewrite <- Eraw, Ejoin in Hinit. rewrite init_encapsulated in Hinit.
  destruct (init_fields_Ok _ _ _ _ _ Hinit)
    as (self & pl & bits0 & id & Hu & Hv & _ & _ & _ & ->).
  rewrite <- Ejoin, Eraw, Esplit in Hu.
  destruct (unpack_Ok _ _ _ Hu)
    as (g1 & g2 & g3 & g4 & g5 & g6 & g7 & tk & mt & cn & ix & d & E
        & Htk & Hmt & Hcn & Hix & Hd & ->).
  injection E as <- <- <- <- <- <- <-.
  destruct (is_valid_true _ Hv) as (d' & Ed & Hc). simpl in Ed, Hc.
  injection Ed as <-. rewrite <- Eraw, Ejoin in Hc.
  (* the reordered sentence *)
  assert (bytes_split "," (bytes_join "," ["!"%byte :: t; f2; f3; f4; f5; p'; f7])
          = ["!"%byte :: t; f2; f3; f4; f5; p'; f7]) as Esplit'.
  { apply bytes_split_join; [discriminate|].
    repeat (apply Forall_cons; split); try assumption; [|constructor].
    now rewrite <- Hperm. }
  rewrite Ejoin in Esplit' |- *. rewrite init_encapsulated, Esplit'.
  unfold init_fields, unpack. cbn [length Nat.eqb negb].
  rewrite Htk, Hmt, Hcn, Hix, Hd. cbn [mbind result_bind mret result_ret].
  unfold is_valid. cbn [raw checksum].
  rewrite (compute_checksum_perm _ pre p p' post Hpre Hperm Hstar), Hc.
  cbn [mbind result_bind mret result_ret].
  rewrite bool_decide_eq_true_2 by reflexivity. cbn [negb data].
  rewrite Hbits. cbn [mbind result_bind]. rewrite Hid. reflexivity.
Qed.
End Undetected.

(** ** Parsing an assembled line again *)

Lemma bytes_split_length_app (sep : byte) (a b : bytes) :
  (length (bytes_split sep (a ++ b)) + 1 =
   length (bytes_split sep a) + length (bytes_split sep b))%nat.
Proof.
  induction a as [|c a IH]; simpl; [lia|].
  destruct (Byte.eqb c sep); simpl; [lia|].
  destruct (bytes_split_cons sep (a ++ b)) as (f & fs & E).
  destruct (bytes_split_cons sep a) as (g & gs & E').
  rewrite E, E' in *. simpl in *. lia.
Qed.

Lemma bytes_split_length_concat (sep : byte) (n : nat) (lines : list bytes) :
  Forall (fun r => length (bytes_split sep r) = S n) lines ->
  length (bytes_split sep (concat lines)) = (n * length lines + 1)%nat.
Proof.
  induction 1 as [|r rs Hr _ IH]; simpl; [lia|].
  pose proof (bytes_split_length_app sep r (concat rs)). lia.
Qed.

Section Reparse.
Variable decode_into_bit_array : bytes -> result bitarray.
Variable get_int : bitarray -> Z -> Z -> result Z.

Local Abbreviation init := (NMEAMessage_init decode_into_bit_array get_int).

Lemma parsed_frame_raw (m : NMEAMessage) :
  parsed_frame decode_into_bit_array get_int m ->
  head (raw m) = Some "!"%byte /\ length (bytes_split "," (raw m)) = 7%nat.
Proof.
  intros (raw0 & Hhead & Hinit).
  destruct raw0 as [|c r]; [discriminate|]. injection Hhead as ->.
  rewrite init_encapsulated in Hinit.
  destruct (init_fields_Ok _ _ _ _ _ Hinit)
    as (self & pl & bs & id & Hu & _ & _ & _ & _ & ->).
  destruct (unpack_Ok _ _ _ Hu)
    as (f1 & f2 & f3 & f4 & f5 & f6 & f7 & tk & mt & cn & ix & d & E
        & _ & _ & _ & _ & _ & ->).
  cbn [raw set_ais_id set_bit_array]. split; [reflexivity|now rewrite E].
Qed.

(** X21: the [raw] of a message assembled from two or more parsed frames
    is not a sentence any more: it begins with ['!'] and has six more
    comma-fields per fragment, so constructing a message from it raises the
    field-count [ValueError]. *)
Theorem assembled_raw_not_parseable (h h' : heap) (messages : list loc) (r : loc) :
  (2 <= length messages)%nat ->
  Forall (fun l => parsed_frame decode_into_bit_array get_int (h l)) messages ->
  assemble_from_iterable h messages = Ok (h', r) ->
  init (raw (h' r)) = Raise (ValueError NotSevenFields).
Proof.
  intros Hlen Hall H.
  destruct (assemble_from_iterable_Ok _ _ _ _ H)
    as (acc_raw & acc_data & acc_bits & Hloop & Hhead & _ & ->).
  destruct (assemble_loop_cases h messages [] [] []) as [[_ E]|[_ E]];
    rewrite E in Hloop; [|discriminate].
  injection Hloop as <- _ _. cbn [raw set_bit_array set_data set_raw app].
  assert (Forall (fun x => length (bytes_split "," x) = 7%nat)
            ((fun l => raw (h l)) <$> messages)) as H7.
  { apply Forall_fmap. eapply Forall_impl; [exact Hall|].
    intros l Hl. apply (parsed_frame_raw _ Hl). }
  pose proof (bytes_split_length_concat "," 6 _ H7) as Hn.
  rewrite length_fmap in Hn.
  destruct messages as [|l ls]; [discriminate|].
  inversion Hall as [|? ? Hl _]; subst.
  destruct (parsed_frame_raw _ Hl) as [Hbang _].
  rewrite fmap_cons, concat_cons in *.
  destruct (raw (h l)) as [|c rest]; [discriminate|]. injection Hbang as ->.
  cbn [app] in *. rewrite init_encapsulated. unfold init_fields.
  replace (length (bytes_split "," ("!"%byte :: rest ++ concat ((fun l0 => raw (h l0)) <$> ls)))
           =? 7)%nat with false; [reflexivity|].
  symmetry. apply Nat.eqb_neq. cbn [length] in Hn, Hlen. lia.
Qed.
End Reparse.

(** ** The sentences that are accepted *)

Lemma decode_ascii_Ok_inv (s : bytes) (t : string) :
  decode_ascii s = Ok t ->
  Forall (fun b => ord b < 128) s /\ t = string_of_list_byte s.
Proof.
  unfold decode_ascii.
  destruct (forallb (fun b => ord b <? 128) s) eqn:E; [|discriminate].
  intros [= <-]. split; [|reflexivity].
  rewrite forallb_forall in E. apply Forall_forall. intros b Hb.
  apply Z.ltb_lt, E. now apply list_elem_of_In.
Qed.

Section Acceptance.
Variable decode_into_bit_array : bytes -> result bitarray.
Variable get_int : bitarray -> Z -> Z -> result Z.

Local Abbreviation init := (NMEAMessage_init decode_into_bit_array get_int).

(** X2: a line that begins with ['!'] is accepted exactly when it has seven
    comma-fields, the first field is ASCII after its first byte, [int()]
    accepts fields 2 and 3 in base 10 and the seventh field from its third
    byte on in base 16, there is at least one byte between the first byte
    and the first ['*'] (or the end), these bytes XOR to the number read
    from the seventh field, and the payload unarmours with a readable
    message id.  The frame then holds bytes 2-3 and the rest of the first
    field as talker and message type, the two numbers, fields 4 to 6
    verbatim, the checksum, the bits and the id. *)
Theorem init_accepts_iff (raw0 : bytes) (fr : NMEAMessage) :
  head raw0 = Some "!"%byte ->
  init raw0 = Ok fr <->
  exists f1 f2 f3 f4 f5 f6 f7 c i d bs id,
    bytes_split "," raw0 = [f1; f2; f3; f4; f5; f6; f7] /\
    Forall (fun b => ord b < 128) (slice_from f1 1) /\
    py_int 10 f2 = Ok c /\ py_int 10 f3 = Ok i /\
    py_int 16 (slice_from f7 2) = Ok d /\
    run_before "*" (slice_from raw0 1) <> [] /\
    xor_fold (run_before "*" (slice_from raw0 1)) = d /\
    decode_into_bit_array f6 = Ok bs /\
    get_int bs 0 6 = Ok id /\
    fr = mkNMEA (Some id) raw0
           (Some (string_of_list_byte (slice f1 1 3)))
           (Some (string_of_list_byte (slice_from f1 3)))
           (Some c) (Some i) (Some f4) (Some f5) (Some f6) (Some d) (Some bs).
Proof.
  intros Hhead. destruct raw0 as [|b r]; [discriminate|].
  injection Hhead as ->. rewrite init_encapsulated. split.
  - intros H.
    destruct (init_fields_Ok _ _ _ _ _ H)
      as (self & pl & bs & id & Hu & Hv & Hd & Hbits & Hid & ->).
    destruct (unpack_Ok _ _ _ Hu)
      as (f1 & f2 & f3 & f4 & f5 & f6 & f7 & tk & mt & c & i & d & E
          & Htk & Hmt & Hc & Hi & Hck & ->).
    destruct (is_valid_true _ Hv) as (d' & Ed & Hcc). simpl in Ed, Hcc, Hd.
    injection Ed as <-. injection Hd as <-.
    apply decode_ascii_Ok_inv in Htk as [Atk ->].
    apply decode_ascii_Ok_inv in Hmt as [Amt ->].
    rewrite compute_checksum_unfold in Hcc.
    exists f1, f2, f3, f4, f5, f6, f7, c, i, d, bs, id.
    split; [exact E|]. split.
    { unfold slice, slice_from in *. rewrite <- (take_drop 2 (drop 1 f1)).
      apply Forall_app. split; [exact Atk|]. now rewrite drop_drop. }
    split; [exact Hc|]. split; [exact Hi|]. split; [exact Hck|].
    destruct (run_before "*" (slice_from ("!"%byte :: r) 1)) as [|x run] eqn:Er;
      [discriminate|].
    injection Hcc as Hcc.
    split; [discriminate|]. split; [exact Hcc|].
    split; [exact Hbits|]. split; [exact Hid|reflexivity].
  - intros (f1 & f2 & f3 & f4 & f5 & f6 & f7 & c & i & d & bs & id
            & E & Hascii & Hc & Hi & Hck & Hrun & Hxor & Hbits & Hid & ->).
    unfold init_fields, unpack. rewrite E. cbn [length Nat.eqb negb].
    assert (Forall (fun b => ord b < 128) (slice f1 1 3)) as A1
      by (unfold slice, slice_from in *; now apply Forall_take).
    assert (Forall (fun b => ord b < 128) (slice_from f1 3)) as A2.
    { unfold slice_from in *. replace (drop 3 f1) with (drop 2 (drop 1 f1))
        by now rewrite drop_drop. now apply Forall_drop. }
    rewrite (decode_ascii_Ok _ A1), (decode_ascii_Ok _ A2).
    rewrite Hc, Hi, Hck. cbn [mbind result_bind mret result_ret].
    unfold is_valid. cbn [raw checksum]. rewrite compute_checksum_unfold.
    destruct (run_before "*" (slice_from ("!"%byte :: r) 1)) as [|x run] eqn:Er;
      [contradiction|].
    rewrite Hxor. cbn [mbind result_bind mret result_ret].
    rewrite bool_decide_eq_true_2 by reflexivity. cbn [negb data].
    rewrite Hbits. cbn [mbind result_bind]. rewrite Hid. reflexivity.
Qed.
End Acceptance.

(** * The further properties at concrete sentences *)

Lemma init_other_sentinel_ignored_witness :
  NMEAMessage_new (B "$GPGGA,1") = Ok (blank (B "$GPGGA,1")).
Proof.
  apply (init_other_sentinel_ignored unarm get_uint (B "$GPGGA,1") "$");
    [reflexivity|discriminate|discriminate].
Defined.

Lemma init_accepts_iff_witness :
  NMEAMessage_new fragment2 = Ok (frame_of fragment2).
Proof.
  apply (proj2 (init_accepts_iff unarm get_uint fragment2 (frame_of fragment2)
                  eq_refl)).
  exists (B "!AIVDM"), (B "2"), (B "2"), (B "3"), (B "B"),
    (B "1@0000000000000"), (B "2*55"), 2, 2, 85,
    (concat (six_bits <$> B "1@0000000000000")), 1.
  split; [reflexivity|]. split; [repeat constructor|].
  split; [reflexivity|]. split; [reflexivity|]. split; [reflexivity|].
  split; [discriminate|]. split; [reflexivity|].
  split; [reflexivity|]. split; reflexivity.
Defined.

Lemma init_all_or_nothing_witness :
  raw (frame_of fragment2) = fragment2 /\ is_Some (seq_id (frame_of fragment2)).
Proof.
  destruct (init_all_or_nothing unarm get_uint fragment2 (frame_of fragment2)
              frame_of_fragment2) as [Hraw [[Hne _]|(_ & _ & _ & _ & _ & _ & Hs & _)]].
  - exfalso. apply Hne. reflexivity.
  - split; [exact Hraw|exact Hs].
Defined.

Lemma init_checksum_is_byte_witness :
  exists d, checksum (frame_of fragment2) = Some d /\ 0 <= d <= 255.
Proof.
  apply (init_checksum_is_byte unarm get_uint fragment2 (frame_of fragment2) eq_refl).
  exact frame_of_fragment2.
Defined.

Lemma init_empty_run_TypeError_witness :
  NMEAMessage_new (B "!*,1,1,,A,x,0*00") = Raise TypeError.
Proof.
  apply (init_empty_run_TypeError unarm get_uint (B "!*,1,1,,A,x,0*00")
           (mkNMEA None (B "!*,1,1,,A,x,0*00") (Some "*"%string) (Some ""%string)
              (Some 1) (Some 1) (Some []) (Some (B "A")) (Some (B "x")) (Some 0)
              None) eq_refl eq_refl).
  reflexivity.
Defined.

Lemma init_bad_number_witness :
  NMEAMessage_new bad_count = Raise (ValueError InvalidLiteral) \/
  NMEAMessage_new bad_count = Raise (ValueError ExceedsDigitLimit).
Proof.
  apply (init_bad_number unarm get_uint bad_count
           (B "!AIVDM") (B "x") (B "1") [] (B "A") (B "0Am") (B "0*3A") eq_refl eq_refl).
  - repeat constructor.
  - left. exists (ValueError InvalidLiteral). reflexivity.
Defined.

Lemma init_non_ascii_head_witness :
  NMEAMessage_new (B "!A" ++ [byte_of 233] ++ B "VDM,1,1,,A,x,0*00")
  = Raise UnicodeDecodeError.
Proof.
  apply (init_non_ascii_head unarm get_uint
           (B "!A" ++ [byte_of 233] ++ B "VDM,1,1,,A,x,0*00")
           (B "!A" ++ [byte_of 233] ++ B "VDM") eq_refl eq_refl eq_refl).
  right. right. left. vm_compute. discriminate.
Defined.

Lemma init_trailing_whitespace_witness :
  NMEAMessage_new (fragment2 ++ [byte_of 13; byte_of 10])
  = Ok (set_raw (fragment2 ++ [byte_of 13; byte_of 10]) (frame_of fragment2)).
Proof.
  apply (init_trailing_whitespace unarm get_uint fragment2 [byte_of 13; byte_of 10]
           (frame_of fragment2) eq_refl frame_of_fragment2).
  - apply list_elem_of_In. vm_compute. tauto.
  - repeat constructor.
Defined.

Lemma is_single_iff_witness :
  is_single (frame_of position_report) = true /\
  is_multi (blank (B "$GPGGA,1")) = true.
Proof.
  split.
  - apply (is_single_iff unarm get_uint position_report (frame_of position_report)).
    + vm_compute. reflexivity.
    + repeat split.
  - apply (is_single_iff unarm get_uint (B "$GPGGA,1") (blank (B "$GPGGA,1"))).
    + reflexivity.
    + discriminate.
Defined.

Lemma assemble_singleton_witness :
  exists h', assemble_from_iterable two_fragments [0%nat] = Ok (h', 0%nat) /\
             forall l', h' l' = two_fragments l'.
Proof.
  apply (assemble_singleton two_fragments 0%nat).
  split; eexists; vm_compute; reflexivity.
Defined.

Lemma assemble_keeps_is_valid_witness :
  exists h', assemble_from_iterable two_fragments [0; 1]%nat = Ok (h', 0%nat) /\
             is_valid (h' 0%nat) = is_valid (two_fragments 0%nat).
Proof.
  destruct assemble_two_fragments as (h' & E & _). exists h'.
  split; [exact E|].
  apply (assemble_keeps_is_valid two_fragments h' [0; 1]%nat 0%nat E).
  apply list_elem_of_In. vm_compute. tauto.
Defined.

Lemma assemble_twice_witness :
  exists h1 h2,
    assemble_from_iterable two_fragments [0; 1]%nat = Ok (h1, 0%nat) /\
    assemble_from_iterable h1 [0; 1]%nat = Ok (h2, 0%nat) /\
    raw (h2 0%nat) = fragment1 ++ fragment2 ++ fragment2.
Proof.
  destruct assemble_two_fragments as (h1 & E & _).
  destruct (assemble_twice two_fragments h1 0%nat 0%nat [1%nat] E)
    as (h2 & E2 & Hraw & _).
  - intros Hin. apply list_elem_of_singleton in Hin. discriminate.
  - exists h1, h2. split; [exact E|]. split; [exact E2|].
    rewrite Hraw. vm_compute. reflexivity.
Defined.

Lemma dict_of_ascii_line_witness :
  exists d, NMEAMessage_dict (frame_of fragment2) = Ok d /\
            d !! 9%nat = Some ("checksum"%string, VInt 85).
Proof.
  eexists. split.
  - apply (dict_of_ascii_line unarm get_uint fragment2 (frame_of fragment2)).
    + repeat constructor.
    + exact frame_of_fragment2.
  - reflexivity.
Defined.

Lemma dict_invalid_utf8_witness :
  NMEAMessage_new [("$")%byte; byte_of 255] = Ok (blank [("$")%byte; byte_of 255]) /\
  NMEAMessage_dict (blank [("$")%byte; byte_of 255]) = Raise UnicodeDecodeError.
Proof.
  split; [reflexivity|].
  apply (dict_invalid_utf8 unarm get_uint [("$")%byte; byte_of 255]); reflexivity.
Defined.

Lemma from_string_ascii_witness :
  from_string unarm get_uint (ord <$> fragment2) = NMEAMessage_new fragment2.
Proof.
  destruct (from_string_ascii unarm get_uint (ord <$> fragment2)) as [E _].
  - apply (bool_decide_unpack _). vm_compute. exact I.
  - rewrite E. reflexivity.
Defined.

Lemma is_valid_iff_witness :
  is_valid (frame_of fragment2) = Ok true.
Proof.
  apply (is_valid_iff unarm get_uint fragment2 (frame_of fragment2) frame_of_fragment2).
  reflexivity.
Defined.

Lemma payload_permutation_accepted_witness :
  exists m,
    NMEAMessage_new (B "!AIVDM,2,2,3,B,10@000000000000,2*55") = Ok m /\
    data m = Some (B "10@000000000000") /\ checksum m = Some 85.
Proof.
  eexists. split.
  - change (B "!AIVDM,2,2,3,B,10@000000000000,2*55")
      with (bytes_join "," [B "!AIVDM"; B "2"; B "2"; B "3"; B "B";
                            B "10@000000000000"; B "2*55"]).
    apply (payload_permutation_accepted unarm get_uint fragment2 (frame_of fragment2)
             (B "!AIVDM") (B "2") (B "2") (B "3") (B "B")
             (B "1@0000000000000") (B "10@000000000000") (B "2*55")
             (concat (six_bits <$> B "10@000000000000")) 1
             eq_refl frame_of_fragment2 eq_refl).
    + constructor. apply perm_swap.
    + intros Hin. apply list_elem_of_In in Hin. vm_compute in Hin.
      intuition discriminate.
    + reflexivity.
    + reflexivity.
  - split; reflexivity.
Defined.

Lemma assembled_raw_not_parseable_witness :
  exists h', assemble_from_iterable two_fragments [0; 1]%nat = Ok (h', 0%nat) /\
             NMEAMessage_new (raw (h' 0%nat)) = Raise (ValueError NotSevenFields).
Proof.
  destruct assemble_two_fragments as (h' & E & _). exists h'.
  split; [exact E|].
  apply (assembled_raw_not_parseable unarm get_uint two_fragments h' [0; 1]%nat 0%nat).
  - simpl. lia.
  - exact two_fragments_parsed.
  - exact E.
Defined.
